(** * Iterated prisoner's dilemma: a shallow embedding of
    [iterative_prisoner_dilemma.py] and the properties of its engine.

    Python integers are [Z].  A float is its value, a rational ([Q]), so
    the two zeros are one; [/] on integers rounds the quotient to the
    nearest double, or raises [OverflowError].
    The [random] module and the text of a float are not part of the program:
    they are the variables of [Section Engine]. *)

From Stdlib Require Import ZArith QArith Qround Qpower Qabs Lqa.
From Stdlib Require Import List String Ascii Bool Lia DecimalString.
Import ListNotations.
Close Scope Q_scope.
Open Scope string_scope.
Open Scope Z_scope.

(** ** Actions and payoffs *)

(** [class Action(Enum)] *)
Inductive Action : Type :=
| COOPERATE
| DEFECT.

Definition Action_eqb (a b : Action) : bool :=
  match a, b with
  | COOPERATE, COOPERATE => true
  | DEFECT, DEFECT => true
  | _, _ => false
  end.

(** [Payoff = Tuple[int, int]] *)
Definition Payoff : Type := (Z * Z)%type.

(** [Action.compute_payoff] *)
Definition compute_payoff (self other_action : Action) : Payoff :=
  if Action_eqb self COOPERATE && Action_eqb other_action COOPERATE then (3, 3)
  else if Action_eqb self DEFECT && Action_eqb other_action COOPERATE then (5, 0)
  else if Action_eqb self COOPERATE && Action_eqb other_action DEFECT then (0, 5)
  else (1, 1).

(** The two components of a pair exchanged. *)
Definition reverse (p : Payoff) : Payoff := (snd p, fst p).

(** ** Outcomes of a call *)

(** What a subscription is indexed with: an integer or a string. *)
Inductive subscript : Type :=
| SInt (i : Z)
| SStr (s : string).

(** The exceptions the program can raise. *)
Inductive exception : Type :=
| ZeroDivisionError
| OverflowError
| KeyError (key : subscript).

(** A call either returns a value or raises. *)
Inductive outcome (A : Type) : Type :=
| Returns (a : A)
| Raises (e : exception).

Arguments Returns {A} a.
Arguments Raises {A} e.

(** ** Floats

    The greatest [k] with [2^k <= x], for [x > 0]. *)
Definition floor_log2 (x : Q) : Z :=
  let d := Z.log2 (Qnum x) - Z.log2 (Zpos (Qden x)) in
  if Qle_bool (2 ^ d)%Q x then d else d - 1.

(** The integer nearest to [y]; the even one of the two when [y] is half
    way between them. *)
Definition round_half_even (y : Q) : Z :=
  let f := Qfloor y in
  match Qcompare (y - inject_Z f) (1 # 2) with
  | Lt => f
  | Gt => f + 1
  | Eq => if Z.even f then f else f + 1
  end.

(** The exponent of the unit of the last place of a double of magnitude
    [x > 0]: 53 bits, and no exponent below -1074. *)
Definition ulp_exponent (x : Q) : Z := Z.max (floor_log2 x - 52) (-1074).

(** The double nearest to [x > 0], ties to even; none when that would be
    [2^1024] or more. *)
Definition round_positive (x : Q) : option Q :=
  let e := ulp_exponent x in
  let q := (inject_Z (round_half_even (x / 2 ^ e)) * 2 ^ e)%Q in
  if Qle_bool (2 ^ 1024)%Q q then None else Some q.

(** The double nearest to [x], by its value. *)
Definition float_of_Q (x : Q) : option Q :=
  match Qcompare x 0 with
  | Eq => Some 0%Q
  | Gt => round_positive x
  | Lt => option_map Qopp (round_positive (- x))
  end.


(** The exact quotient of two integers. *)
Definition quotient (a b : Z) : Q := Qdiv (inject_Z a) (inject_Z b).

(** [a / b] on integers: [ZeroDivisionError] for a zero divisor, otherwise
    the double nearest to the quotient, or [OverflowError] when the
    quotient is too large for a double. *)
Definition truediv (a b : Z) : outcome Q :=
  if b =? 0 then Raises ZeroDivisionError
  else match float_of_Q (quotient a b) with
       | Some q => Returns q
       | None => Raises OverflowError
       end.

(** [Action[name]]: subscription of the enumeration class looks a member up
    by its NAME, so only the two member names are keys; any other
    subscript, an integer included, is a [KeyError]. *)
Definition Action_class_getitem (name : subscript) : outcome Action :=
  match name with
  | SStr s =>
      if String.eqb s "COOPERATE" then Returns COOPERATE
      else if String.eqb s "DEFECT" then Returns DEFECT
      else Raises (KeyError name)
  | SInt _ => Raises (KeyError name)
  end.

(** [len(Action)] *)
Definition Action_class_len : Z := 2.

(** ** The histogram: a [defaultdict(int)] keyed by actions

    A Python dict keeps its keys in insertion order, and the rendering of a
    report shows that order, so the dict is the list of its items. *)
Definition dict : Type := list (Action * Z).

Fixpoint dict_lookup (d : dict) (k : Action) : option Z :=
  match d with
  | [] => None
  | (k', v) :: rest => if Action_eqb k' k then Some v else dict_lookup rest k
  end.

(** [d[k] = v]: an existing key keeps its place, a new one goes last. *)
Fixpoint dict_setitem (d : dict) (k : Action) (v : Z) : dict :=
  match d with
  | [] => [(k, v)]
  | (k', v') :: rest =>
      if Action_eqb k' k then (k', v) :: rest
      else (k', v') :: dict_setitem rest k v
  end.

(** The count held for [k], zero when [k] is not a key; the dict is left as
    it is. *)
Definition stored (d : dict) (k : Action) : Z :=
  match dict_lookup d k with
  | Some v => v
  | None => 0
  end.

Definition dict_values (d : dict) : list Z := map snd d.

(** [d[k]] on a [defaultdict(int)]: a missing key is stored with [int()],
    that is [0], and that value is returned. *)
Definition defaultdict_getitem (d : dict) (k : Action) : Z * dict :=
  match dict_lookup d k with
  | Some v => (v, d)
  | None => (0, dict_setitem d k 0)
  end.

(** [sum(xs)] *)
Definition sum (xs : list Z) : Z := fold_left Z.add xs 0.

(** ** StrategyReport *)

Record StrategyReport : Type := mkStrategyReport {
  total_gain : Z;
  action_histogram : dict
}.

(** [StrategyReport.__init__] *)
Definition StrategyReport_init : StrategyReport :=
  {| total_gain := 0; action_histogram := [] |}.

(** [StrategyReport.notify] *)
Definition notify (action : Action) (payoff : Z) (self : StrategyReport)
  : StrategyReport :=
  let '(count, histogram) := defaultdict_getitem (action_histogram self) action in
  {| total_gain := total_gain self + payoff;
     action_histogram := dict_setitem histogram action (count + 1) |}.

(** [StrategyReport.n_rounds] *)
Definition n_rounds (self : StrategyReport) : Z :=
  sum (dict_values (action_histogram self)).

(** [StrategyReport.average_gain] *)
Definition average_gain (self : StrategyReport) : outcome Q :=
  truediv (total_gain self) (n_rounds self).

(** Notifications delivered one after the other. *)
Definition notify_all (calls : list (Action * Z)) (self : StrategyReport)
  : StrategyReport :=
  fold_left (fun r c => notify (fst c) (snd c) r) calls self.

(** How many of the notifications were for [a]. *)
Fixpoint count_played (a : Action) (calls : list (Action * Z)) : Z :=
  match calls with
  | [] => 0
  | c :: rest =>
      (if Action_eqb (fst c) a then 1 else 0) + count_played a rest
  end.

(** The actions of [l], each once, in the order in which they first occur:
    the order in which a dict receives its keys. *)
Definition first_occurrences (l : list Action) : list Action :=
  fold_left
    (fun seen a => if existsb (Action_eqb a) seen then seen else seen ++ [a])%list
    l [].

(** 1 for a defection, 0 for a cooperation. *)
Definition defects (a : Action) : Z := if Action_eqb a DEFECT then 1 else 0.

(** How many defections a strategy report has recorded. *)
Definition defections (r : StrategyReport) : Z :=
  stored (action_histogram r) DEFECT.

(** ** Strategies *)

(** The concrete strategy classes, each with its instance attributes. *)
Inductive Strategy : Type :=
| UniformStrategy
| CooperativeStrategy
| DefectStrategy
| ReplayStrategy (_first_action : Action) (_last_opponent_action : option Action)
| RandomStrategy (_p_cooperate : Q).

(** [ReplayStrategy.__init__] *)
Definition ReplayStrategy_init (first_action : Action) : Strategy :=
  ReplayStrategy first_action None.

(** [RandomStrategy.__init__], [p_cooperate] defaulting to 0.5. *)
Definition RandomStrategy_init (p_cooperate : option Q) : Strategy :=
  RandomStrategy match p_cooperate with Some p => p | None => Qmake 1 2 end.

(** The classes whose [take_turn] reads the object alone, and the action
    such an object takes next. *)
Definition next_action (s : Strategy) : option Action :=
  match s with
  | CooperativeStrategy => Some COOPERATE
  | DefectStrategy => Some DEFECT
  | ReplayStrategy first_action None => Some first_action
  | ReplayStrategy _ (Some a) => Some a
  | UniformStrategy => None
  | RandomStrategy _ => None
  end.

(** The classes that always take the same action. *)
Definition fixed_action (s : Strategy) : option Action :=
  match s with
  | CooperativeStrategy => Some COOPERATE
  | DefectStrategy => Some DEFECT
  | _ => None
  end.

(** A strategy object once it has received [register_opponent_action(a)]. *)
Definition after_register (s : Strategy) (a : Action) : Strategy :=
  match s with
  | ReplayStrategy first_action _ => ReplayStrategy first_action (Some a)
  | _ => s
  end.

(** An object reference; [is] compares references. *)
Definition ref : Type := nat.

Bind Scope nat_scope with ref.

(** ** Report

    The two players by reference, and the two strategy reports as they are
    when the report is built. *)

Record Report : Type := mkReport {
  p1 : ref;
  strategy_report_p1 : StrategyReport;
  p2 : ref;
  strategy_report_p2 : StrategyReport
}.

(** [Report.winner] *)
Definition winner (self : Report) : option ref :=
  let gain_1 := total_gain (strategy_report_p1 self) in
  let gain_2 := total_gain (strategy_report_p2 self) in
  if gain_1 =? gain_2 then None
  else if gain_1 >? gain_2 then Some (p1 self)
  else Some (p2 self).

(** [winner is p] *)
Definition is_object (winner : option ref) (p : ref) : bool :=
  match winner with
  | Some r => Nat.eqb r p
  | None => false
  end.

(** ** Text *)

Definition newline : string := String (ascii_of_nat 10) EmptyString.

(** [str] of an integer, in full: the interpreter's configurable limit on
    the number of digits is not modelled. *)
Definition int_str (n : Z) : string := NilZero.string_of_int (Z.to_int n).

(** [repr] of an enumeration member. *)
Definition Action_repr (a : Action) : string :=
  match a with
  | COOPERATE => "<Action.COOPERATE: 'cooperate'>"
  | DEFECT => "<Action.DEFECT: 'defect'>"
  end.

Fixpoint join (sep : string) (parts : list string) : string :=
  match parts with
  | [] => ""
  | [s] => s
  | s :: rest => s ++ sep ++ join sep rest
  end.

(** [repr] of a [defaultdict(int)]. *)
Definition defaultdict_repr (d : dict) : string :=
  "defaultdict(<class 'int'>, {"
  ++ join ", " (map (fun kv => Action_repr (fst kv) ++ ": " ++ int_str (snd kv)) d)
  ++ "})".

(** ** A state and exception monad *)

Definition Py (St A : Type) : Type := St -> outcome A * St.

Definition ret {St A : Type} (a : A) : Py St A := fun s => (Returns a, s).

(** The outcome of an evaluation that leaves the state as it is. *)
Definition value_of {St A : Type} (o : outcome A) : Py St A := fun s => (o, s).

Definition bind {St A B : Type} (c : Py St A) (k : A -> Py St B) : Py St B :=
  fun s =>
    match c s with
    | (Returns a, s') => k a s'
    | (Raises e, s') => (Raises e, s')
    end.

Declare Scope py_scope.
Delimit Scope py_scope with py.
Notation "x <- c ;; k" := (bind c (fun x => k))
  (at level 61, c at next level, right associativity) : py_scope.
Notation "c ;; k" := (bind c (fun _ => k))
  (at level 61, right associativity) : py_scope.

(** [for _ in range(n)]: the body run [n] times, stopping at an exception. *)
Fixpoint repeat_py {St : Type} (n : nat) (body : Py St unit) : Py St unit :=
  match n with
  | O => ret tt
  | S k => bind body (fun _ => repeat_py k body)
  end.

(** The calls a strategy object receives from outside. *)
Inductive call : Type :=
| call_take_turn
| call_register_opponent_action (action : Action).

(** The argument of the last [register_opponent_action] among [calls]. *)
Fixpoint last_registered (calls : list call) : option Action :=
  match calls with
  | [] => None
  | c :: rest =>
      match last_registered rest with
      | Some a => Some a
      | None =>
          match c with
          | call_register_opponent_action a => Some a
          | call_take_turn => None
          end
      end
  end.

(** ** The engine's own data *)

Record IPDEngine : Type := mkIPDEngine {
  _p1 : ref;
  _p2 : ref;
  _report_1 : StrategyReport;
  _report_2 : StrategyReport
}.

(** [IPDEngine.MAX_N_TURN] *)
Definition MAX_N_TURN : Z := 10000.

(** [IPDEngine.__init__] *)
Definition IPDEngine_init (player_1 player_2 : ref) : IPDEngine :=
  {| _p1 := player_1;
     _p2 := player_2;
     _report_1 := StrategyReport_init;
     _report_2 := StrategyReport_init |}.

(** ** The world outside the engine

    What the program can change outside the engine object: the strategy
    objects, by reference, and the state of the [random] module, of some
    type [RNG]. *)
Record World (RNG : Type) : Type := mkWorld {
  objects : ref -> Strategy;
  rng : RNG
}.

Arguments mkWorld {RNG} objects rng.
Arguments objects {RNG} w r : rename.
Arguments rng {RNG} w : rename.

Definition set_object {RNG : Type} (r : ref) (s : Strategy) (w : World RNG)
  : World RNG :=
  {| objects := fun r' => if Nat.eqb r' r then s else objects w r';
     rng := rng w |}.

(** A draw from the generator, which moves to its next state. *)
Definition draw {RNG A : Type} (f : RNG -> A * RNG) : Py (World RNG) A :=
  fun w =>
    let '(x, g) := f (rng w) in
    (Returns x, {| objects := objects w; rng := g |}).

(** A generator to run the engine on concrete inputs: a linear congruential
    sequence of 31-bit words. *)
Module Lcg.

Definition RNG : Type := Z.

Definition next (g : RNG) : RNG := (1103515245 * g + 12345) mod 2147483648.

Definition randbelow (n : Z) (g : RNG) : Z * RNG := (g mod n, next g).

Definition random (g : RNG) : Q * RNG := (Qmake g 2147483648, next g).

Definition randint (a b : Z) (g : RNG) : Z * RNG := (a + g mod (b - a + 1), next g).

Definition float_repr (x : Q) : string :=
  int_str (Qnum x) ++ "/" ++ int_str (Zpos (Qden x)).

(** Four strategy objects: at 0 and 1 the two the program itself builds,
    [ReplayStrategy(Action.DEFECT)] and [CooperativeStrategy()]; at 2 a
    [UniformStrategy()]; elsewhere [RandomStrategy()]. *)
Definition demo_objects (r : ref) : Strategy :=
  match r with
  | 0%nat => ReplayStrategy_init DEFECT
  | 1%nat => CooperativeStrategy
  | 2%nat => UniformStrategy
  | _ => RandomStrategy_init None
  end.

Definition demo_world : World RNG := {| objects := demo_objects; rng := 42 |}.

End Lcg.

Section Engine.

(** The state of the [random] module and the three draws the program makes
    from it: [_randbelow(n)], an index below [n]; [random()], a float in
    [0, 1); [randint(a, b)]. *)
Variable RNG : Type.
Variable randbelow : Z -> RNG -> Z * RNG.
Variable random : RNG -> Q * RNG.
Variable randint : Z -> Z -> RNG -> Z * RNG.

(** [repr] of a float. *)
Variable float_repr : Q -> string.

(** [rng.choice(Action)], which is [Action[rng._randbelow(len(Action))]]. *)
Definition choice_Action : Py (World RNG) Action :=
  (i <- draw (randbelow Action_class_len) ;;
   value_of (Action_class_getitem (SInt i)))%py.

(** [take_turn], dispatched on the class of the object. *)
Definition take_turn (self : ref) : Py (World RNG) Action :=
  fun w =>
    match objects w self with
    | UniformStrategy => choice_Action w
    | CooperativeStrategy => ret COOPERATE w
    | DefectStrategy => ret DEFECT w
    | ReplayStrategy first_action last_opponent_action =>
        match last_opponent_action with
        | None => ret first_action w
        | Some a => ret a w
        end
    | RandomStrategy p_cooperate =>
        (x <- draw random ;;
         if Qlt_le_dec x p_cooperate then ret COOPERATE else ret DEFECT)%py w
    end.

(** [register_opponent_action]: [ReplayStrategy] stores the action, the
    other classes inherit the method that does nothing. *)
Definition register_opponent_action (self : ref) (action : Action) : Py (World RNG) unit :=
  fun w =>
    match objects w self with
    | ReplayStrategy first_action _ =>
        (Returns tt, set_object self (ReplayStrategy first_action (Some action)) w)
    | _ => (Returns tt, w)
    end.

(** [__repr__] *)
Definition Strategy_repr (s : Strategy) : string :=
  match s with
  | UniformStrategy => "UniformStrategy()"
  | CooperativeStrategy => "CooperativeStrategy()"
  | DefectStrategy => "DefectStrategy()"
  | ReplayStrategy first_action _ => "ReplayStrategy(" ++ Action_repr first_action ++ ")"
  | RandomStrategy p_cooperate => "RandomStrategy(" ++ float_repr p_cooperate ++ ")"
  end.

(** One call from outside on the object [self]. *)
Definition do_call (self : ref) (c : call) : Py (World RNG) unit :=
  match c with
  | call_take_turn => (take_turn self ;; ret tt)%py
  | call_register_opponent_action a => register_opponent_action self a
  end.

Fixpoint do_calls (self : ref) (calls : list call) : Py (World RNG) unit :=
  match calls with
  | [] => ret tt
  | c :: rest => (do_call self c ;; do_calls self rest)%py
  end.

(** The engine's methods run on the engine object and the world. *)
Definition Game : Type := (IPDEngine * World RNG)%type.

Definition get_self : Py Game IPDEngine := fun s => (Returns (fst s), s).

Definition set_self (f : IPDEngine -> IPDEngine) : Py Game unit :=
  fun s => (Returns tt, (f (fst s), snd s)).

Definition on_world {A : Type} (m : Py (World RNG) A) : Py Game A :=
  fun s => let '(r, w) := m (snd s) in (r, (fst s, w)).

Definition notify_report_1 (action : Action) (payoff : Z) (e : IPDEngine) : IPDEngine :=
  {| _p1 := _p1 e; _p2 := _p2 e;
     _report_1 := notify action payoff (_report_1 e);
     _report_2 := _report_2 e |}.

Definition notify_report_2 (action : Action) (payoff : Z) (e : IPDEngine) : IPDEngine :=
  {| _p1 := _p1 e; _p2 := _p2 e;
     _report_1 := _report_1 e;
     _report_2 := notify action payoff (_report_2 e) |}.

(** The two notifications of a round in which the players took [act_p1]
    and [act_p2]. *)
Definition notify_round (act_p1 act_p2 : Action) (e : IPDEngine) : IPDEngine :=
  notify_report_2 act_p2 (snd (compute_payoff act_p1 act_p2))
    (notify_report_1 act_p1 (fst (compute_payoff act_p1 act_p2)) e).

(** What an engine that started new shows after [k] complete rounds: the
    round counts, the gains against the defections, and the bounds of the
    gains. *)
Definition rounds_played (k : nat) (e : IPDEngine) : Prop :=
  n_rounds (_report_1 e) = Z.of_nat k
  /\ n_rounds (_report_2 e) = Z.of_nat k
  /\ total_gain (_report_1 e) - total_gain (_report_2 e)
     = 5 * (defections (_report_1 e) - defections (_report_2 e))
  /\ 0 <= total_gain (_report_1 e) <= 5 * Z.of_nat k
  /\ 0 <= total_gain (_report_2 e) <= 5 * Z.of_nat k
  /\ 2 * Z.of_nat k <= total_gain (_report_1 e) + total_gain (_report_2 e)
     <= 6 * Z.of_nat k.

(** Two states of a game between the objects [a] and [b], each of a class
    whose turn depends on the object alone, that differ only in the seats
    of the two. *)
Definition seats_exchanged (a b : ref) (s s' : Game) : Prop :=
  _p1 (fst s) = a /\ _p2 (fst s) = b
  /\ _p1 (fst s') = b /\ _p2 (fst s') = a
  /\ _report_1 (fst s') = _report_2 (fst s)
  /\ _report_2 (fst s') = _report_1 (fst s)
  /\ objects (snd s') a = objects (snd s) a
  /\ objects (snd s') b = objects (snd s) b
  /\ next_action (objects (snd s) a) <> None
  /\ next_action (objects (snd s) b) <> None.

(** [IPDEngine.play_round] *)
Definition play_round : Py Game unit :=
  (self <- get_self ;;
   act_p1 <- on_world (take_turn (_p1 self)) ;;
   act_p2 <- on_world (take_turn (_p2 self)) ;;
   let '(payoff_1, payoff_2) := compute_payoff act_p1 act_p2 in
   set_self (notify_report_1 act_p1 payoff_1) ;;
   set_self (notify_report_2 act_p2 payoff_2) ;;
   on_world (register_opponent_action (_p1 self) act_p2) ;;
   on_world (register_opponent_action (_p2 self) act_p1))%py.

(** [IPDEngine.play_game]; [range] of a negative number is empty. *)
Definition play_game (n_turns : option Z) : Py Game Report :=
  (n_turns <- match n_turns with
              | None => on_world (draw (randint 1 MAX_N_TURN))
              | Some n => ret n
              end ;;
   repeat_py (Z.to_nat n_turns) play_round ;;
   self <- get_self ;;
   ret {| p1 := _p1 self;
          strategy_report_p1 := _report_1 self;
          p2 := _p2 self;
          strategy_report_p2 := _report_2 self |})%py.

(** The engine and the world after [k] rounds. *)
Definition after_rounds (k : nat) (s : Game) : Game :=
  snd (repeat_py k play_round s).

(** [repr(winner)], of [None] or of the object referred to. *)
Definition winner_repr (winner_obj : option ref) : Py (World RNG) string :=
  fun w =>
    (Returns match winner_obj with
             | None => "None"
             | Some r => Strategy_repr (objects w r)
             end, w).

(** [Report.__str__]: the fields of the text are evaluated in order. *)
Definition Report_str (self : Report) : Py (World RNG) string :=
  let winner_obj := winner self in
  let win_str := "" in
  let win_str := if is_object winner_obj (p1 self) then "(P1)" else win_str in
  let win_str := if is_object winner_obj (p2 self) then "(P2)" else win_str in
  (f_winner <- winner_repr winner_obj ;;
   f_rounds <- ret (int_str (n_rounds (strategy_report_p1 self))) ;;
   f_average_1 <- value_of (average_gain (strategy_report_p1 self)) ;;
   f_average_2 <- value_of (average_gain (strategy_report_p2 self)) ;;
   f_histogram_1 <- ret (defaultdict_repr (action_histogram (strategy_report_p1 self))) ;;
   f_histogram_2 <- ret (defaultdict_repr (action_histogram (strategy_report_p2 self))) ;;
   ret (newline
        ++ "Winner: " ++ f_winner ++ " " ++ win_str ++ newline
        ++ "Number of rounds: " ++ f_rounds ++ newline
        ++ "Average gain of P1: " ++ float_repr f_average_1 ++ newline
        ++ "Average gain of P2: " ++ float_repr f_average_2 ++ newline
        ++ "Action histogram of P1: " ++ f_histogram_1 ++ newline
        ++ "Action histogram of P2: " ++ f_histogram_2 ++ newline))%py.


(** * Properties *)

(** ** Actions, payoffs, winner, average *)

Lemma Action_eqb_eq (a b : Action) : Action_eqb a b = true <-> a = b.
Proof. destruct a, b; simpl; split; congruence. Qed.

Lemma Action_eqb_refl (a : Action) : Action_eqb a a = true.
Proof. destruct a; reflexivity. Qed.

(** C1: the payoff function is the fixed matrix: (3,3) for two cooperations,
    (5,0) for a defection against a cooperation, (0,5) for a cooperation
    against a defection, (1,1) for two defections. *)
Theorem compute_payoff_matrix :
  compute_payoff COOPERATE COOPERATE = (3, 3)
  /\ compute_payoff DEFECT COOPERATE = (5, 0)
  /\ compute_payoff COOPERATE DEFECT = (0, 5)
  /\ compute_payoff DEFECT DEFECT = (1, 1).
Proof. repeat split. Qed.

(** C9: the payoff of [(a, b)] is the payoff of [(b, a)] with its two
    components exchanged. *)
Theorem compute_payoff_symmetric (a b : Action) :
  compute_payoff a b = reverse (compute_payoff b a).
Proof. destruct a, b; reflexivity. Qed.

(** C4: the winner of a report is player 1 when player 1's total gain is
    strictly the greater, player 2 when it is strictly the smaller, and
    there is none exactly when the two total gains are equal. *)
Theorem winner_by_total_gain (r : Report) :
  (total_gain (strategy_report_p1 r) > total_gain (strategy_report_p2 r)
   -> winner r = Some (p1 r))
  /\ (total_gain (strategy_report_p1 r) < total_gain (strategy_report_p2 r)
      -> winner r = Some (p2 r))
  /\ (winner r = None
      <-> total_gain (strategy_report_p1 r) = total_gain (strategy_report_p2 r)).
Proof.
  unfold winner.
  destruct (Z.eqb_spec (total_gain (strategy_report_p1 r))
                       (total_gain (strategy_report_p2 r))) as [E | N].
  - repeat split; intros; try lia; auto.
  - destruct (Z.gtb_spec (total_gain (strategy_report_p1 r))
                         (total_gain (strategy_report_p2 r))).
    + repeat split; intros; try lia; try discriminate; auto.
    + repeat split; intros; try lia; try discriminate; auto.
Qed.

(** ** Floats: the double nearest to a rational *)

Ltac qlra :=
  unfold Qdiv in *;
  change (/ 2)%Q with (1 # 2)%Q in *;
  change (inject_Z 0) with 0%Q in *;
  change (inject_Z 1) with 1%Q in *;
  lra.

Lemma two_power_pos (e : Z) : (0 < 2 ^ e)%Q.
Proof. apply Qpower_0_lt. reflexivity. Qed.

Lemma two_power_add (a b : Z) : (2 ^ (a + b) == 2 ^ a * 2 ^ b)%Q.
Proof. apply Qpower_plus. discriminate. Qed.

Lemma two_power_le (a b : Z) : a <= b -> (2 ^ a <= 2 ^ b)%Q.
Proof. intros H. apply Qpower_le_compat_l; [exact H | discriminate]. Qed.

Lemma two_power_lt (a b : Z) : a < b -> (2 ^ a < 2 ^ b)%Q.
Proof. intros H. apply Qpower_lt_compat_l; [exact H | reflexivity]. Qed.

Lemma two_power_le_inv (a b : Z) : (2 ^ a <= 2 ^ b)%Q -> a <= b.
Proof. intros H. apply (Qpower_le_compat_l_inv 2); [exact H | reflexivity]. Qed.

Lemma two_power_lt_inv (a b : Z) : (2 ^ a < 2 ^ b)%Q -> a < b.
Proof. intros H. apply (Qpower_lt_compat_l_inv 2); [exact H | reflexivity]. Qed.

Lemma two_power_succ (a : Z) : (2 ^ (a + 1) == 2 * 2 ^ a)%Q.
Proof. rewrite two_power_add. change (2 ^ 1)%Q with 2%Q. ring. Qed.

Lemma two_power_Z (n : Z) : 0 <= n -> (inject_Z (2 ^ n) == 2 ^ n)%Q.
Proof. intros H. apply (Zpower_Qpower 2 n H). Qed.

(** [2^(floor_log2 x) <= x < 2^(floor_log2 x + 1)] *)
Lemma floor_log2_spec (x : Q) :
  (0 < x)%Q ->
  (2 ^ floor_log2 x <= x)%Q /\ (x < 2 ^ (floor_log2 x + 1))%Q.
Proof.
  intros Hx. destruct x as [a b]. unfold floor_log2. cbn [Qnum Qden].
  assert (Ha : 0 < a) by (unfold Qlt in Hx; cbn in Hx; lia).
  destruct (Z.log2_spec a Ha) as [La Ua].
  destruct (Z.log2_spec (Zpos b) (Pos2Z.is_pos b)) as [Lb Ub].
  pose proof (Z.log2_nonneg a) as Na.
  pose proof (Z.log2_nonneg (Zpos b)) as Nb.
  set (la := Z.log2 a) in *. set (lb := Z.log2 (Zpos b)) in *.
  assert (E : (a # b == inject_Z a / inject_Z (Zpos b))%Q) by apply Qmake_Qdiv.
  assert (Pb : (0 < inject_Z (Zpos b))%Q) by (unfold Qlt; cbn; lia).
  (* bounds of a and b by powers of two, in Q *)
  assert (La' : (2 ^ la <= inject_Z a)%Q)
    by (rewrite <- two_power_Z by exact Na; rewrite <- Zle_Qle; exact La).
  assert (Ua' : (inject_Z a < 2 ^ (la + 1))%Q).
  { rewrite <- two_power_Z by lia. rewrite <- Zlt_Qlt.
    replace (la + 1) with (Z.succ la) by lia. exact Ua. }
  assert (Lb' : (2 ^ lb <= inject_Z (Zpos b))%Q)
    by (rewrite <- two_power_Z by exact Nb; rewrite <- Zle_Qle; exact Lb).
  assert (Ub' : (inject_Z (Zpos b) < 2 ^ (lb + 1))%Q).
  { rewrite <- two_power_Z by lia. rewrite <- Zlt_Qlt.
    replace (lb + 1) with (Z.succ lb) by lia. exact Ub. }
  (* the quotient lies between 2^(d-1) and 2^(d+1) *)
  assert (Lo : (2 ^ (la - lb - 1) <= a # b)%Q).
  { rewrite E. apply Qle_shift_div_l; [exact Pb |].
    assert (D : (2 ^ la == 2 ^ (la - lb - 1) * 2 ^ (lb + 1))%Q).
    { rewrite <- two_power_add. replace (la - lb - 1 + (lb + 1)) with la by lia.
      reflexivity. }
    apply (Qle_trans _ (2 ^ (la - lb - 1) * 2 ^ (lb + 1))%Q).
    - apply Qmult_le_l; [apply two_power_pos | apply Qlt_le_weak; exact Ub'].
    - rewrite <- D. exact La'. }
  assert (Hi : (a # b < 2 ^ (la - lb + 1))%Q).
  { rewrite E. apply Qlt_shift_div_r; [exact Pb |].
    assert (D : (2 ^ (la + 1) == 2 ^ (la - lb + 1) * 2 ^ lb)%Q).
    { rewrite <- two_power_add. replace (la - lb + 1 + lb) with (la + 1) by lia.
      reflexivity. }
    apply (Qlt_le_trans _ (2 ^ (la + 1))%Q); [exact Ua' |].
    rewrite D. apply Qmult_le_l; [apply two_power_pos | exact Lb']. }
  destruct (Qle_bool (2 ^ (la - lb)) (a # b)) eqn:C.
  - apply Qle_bool_iff in C. split; [exact C | exact Hi].
  - split; [exact Lo |].
    replace (la - lb - 1 + 1) with (la - lb) by lia.
    apply Qnot_le_lt. intros H. apply Qle_bool_iff in H. congruence.
Qed.

Lemma round_half_even_near (y : Q) :
  (y - (1 # 2) <= inject_Z (round_half_even y))%Q
  /\ (inject_Z (round_half_even y) <= y + (1 # 2))%Q.
Proof.
  unfold round_half_even.
  pose proof (Qfloor_le y) as L. pose proof (Qlt_floor y) as U.
  rewrite inject_Z_plus in U. change (inject_Z 1) with 1%Q in U.
  destruct (Qcompare (y - inject_Z (Qfloor y)) (1 # 2)) eqn:C.
  - apply Qeq_alt in C.
    destruct (Z.even (Qfloor y)); rewrite ?inject_Z_plus;
      change (inject_Z 1) with 1%Q; split; lra.
  - apply Qlt_alt in C. split; lra.
  - apply Qgt_alt in C. rewrite inject_Z_plus. change (inject_Z 1) with 1%Q.
    split; lra.
Qed.

Lemma round_half_even_ge (y : Q) (N : Z) :
  (inject_Z N <= y)%Q -> N <= round_half_even y.
Proof.
  intros H. apply Qfloor_resp_le in H. rewrite Qfloor_Z in H.
  unfold round_half_even.
  destruct (Qcompare (y - inject_Z (Qfloor y)) (1 # 2));
    try destruct (Z.even (Qfloor y)); lia.
Qed.

Lemma round_half_even_le (y : Q) (N : Z) :
  (y <= inject_Z N)%Q -> round_half_even y <= N.
Proof.
  intros H. pose proof (Qfloor_resp_le _ _ H) as F. rewrite Qfloor_Z in F.
  pose proof (Qfloor_le y) as L.
  assert (S : Qfloor y = N -> (y - inject_Z (Qfloor y) < 1 # 2)%Q).
  { intros E. rewrite E. lra. }
  unfold round_half_even.
  destruct (Qcompare (y - inject_Z (Qfloor y)) (1 # 2)) eqn:C.
  - apply Qeq_alt in C.
    destruct (Z.even (Qfloor y)); [exact F |].
    destruct (Z.eq_dec (Qfloor y) N) as [E | E]; [| lia].
    specialize (S E). lra.
  - exact F.
  - apply Qgt_alt in C.
    destruct (Z.eq_dec (Qfloor y) N) as [E | E]; [| lia].
    specialize (S E). lra.
Qed.


Lemma ulp_exponent_ge (x : Q) :
  floor_log2 x - 52 <= ulp_exponent x /\ -1074 <= ulp_exponent x.
Proof. unfold ulp_exponent. lia. Qed.

(** The quotient that is rounded to an integer is below [2^53], and at least
    [2^52] unless the float is subnormal. *)
Lemma scaled_below (x : Q) :
  (0 < x)%Q -> (x / 2 ^ ulp_exponent x < 2 ^ 53)%Q.
Proof.
  intros Hx. destruct (floor_log2_spec x Hx) as [_ U].
  apply Qlt_shift_div_r; [apply two_power_pos |].
  rewrite <- two_power_add.
  apply (Qlt_le_trans _ _ _ U). apply two_power_le.
  pose proof (ulp_exponent_ge x). lia.
Qed.


Lemma scaled_times (x : Q) (e : Z) : (x / 2 ^ e * 2 ^ e == x)%Q.
Proof.
  field. intros H. pose proof (two_power_pos e) as P. rewrite H in P.
  discriminate P.
Qed.

Lemma floor_log2_lt (x : Q) (n : Z) :
  (0 < x)%Q -> (x < 2 ^ n)%Q -> floor_log2 x < n.
Proof.
  intros Hx H. destruct (floor_log2_spec x Hx) as [L _].
  apply two_power_lt_inv. apply (Qle_lt_trans _ _ _ L H).
Qed.


Lemma round_positive_eq (x : Q) :
  round_positive x
  = if Qle_bool (2 ^ 1024)
         (inject_Z (round_half_even (x / 2 ^ ulp_exponent x)) * 2 ^ ulp_exponent x)
    then None
    else Some (inject_Z (round_half_even (x / 2 ^ ulp_exponent x))
               * 2 ^ ulp_exponent x)%Q.
Proof. reflexivity. Qed.

(** What [round_positive] returns is within half a unit of the last place. *)
Lemma round_positive_near (x q : Q) :
  (0 < x)%Q ->
  round_positive x = Some q ->
  (0 <= q)%Q
  /\ (x - 2 ^ ulp_exponent x / 2 <= q)%Q
  /\ (q <= x + 2 ^ ulp_exponent x / 2)%Q
  /\ (q < 2 ^ 1024)%Q.
Proof.
  intros Hx. rewrite round_positive_eq.
  set (e := ulp_exponent x). set (m := round_half_even (x / 2 ^ e)).
  destruct (Qle_bool (2 ^ 1024) (inject_Z m * 2 ^ e)) eqn:O; [discriminate |].
  intros H. injection H as <-.
  pose proof (two_power_pos e) as P.
  destruct (round_half_even_near (x / 2 ^ e)) as [L U]. fold m in L, U.
  pose proof (scaled_times x e) as T.
  assert (M0 : 0 <= m).
  { apply round_half_even_ge. apply Qlt_le_weak.
    apply Qlt_shift_div_l; [exact P |]. qlra. }
  assert (L' : ((x / 2 ^ e - (1 # 2)) * 2 ^ e <= inject_Z m * 2 ^ e)%Q)
    by (apply Qmult_le_compat_r; [exact L | qlra]).
  assert (U' : (inject_Z m * 2 ^ e <= (x / 2 ^ e + (1 # 2)) * 2 ^ e)%Q)
    by (apply Qmult_le_compat_r; [exact U | qlra]).
  assert (M0' : (0 <= inject_Z m)%Q) by (rewrite Zle_Qle in M0; exact M0).
  repeat split.
  - apply Qmult_le_0_compat; qlra.
  - qlra.
  - qlra.
  - apply Qnot_le_lt. intros H. apply Qle_bool_iff in H. congruence.
Qed.




Lemma round_positive_returns (x : Q) :
  (0 < x)%Q -> (x < 2 ^ 1023)%Q -> exists q : Q, round_positive x = Some q.
Proof.
  intros Hx H. rewrite round_positive_eq.
  set (e := ulp_exponent x). set (m := round_half_even (x / 2 ^ e)).
  destruct (Qle_bool (2 ^ 1024) (inject_Z m * 2 ^ e)) eqn:O;
    [| eexists; reflexivity].
  exfalso. apply Qle_bool_iff in O.
  pose proof (floor_log2_lt x 1023 Hx H) as K.
  assert (E : e <= 970) by (unfold e, ulp_exponent; lia).
  assert (M : m <= 2 ^ 53).
  { apply round_half_even_le. rewrite two_power_Z by lia.
    apply Qlt_le_weak, scaled_below, Hx. }
  rewrite Zle_Qle, two_power_Z in M by lia.
  pose proof (two_power_pos e) as P.
  assert (B : (inject_Z m * 2 ^ e <= 2 ^ 53 * 2 ^ e)%Q)
    by (apply Qmult_le_compat_r; [exact M | qlra]).
  rewrite <- two_power_add in B.
  pose proof (two_power_lt (53 + e) 1024 ltac:(lia)) as C.
  qlra.
Qed.



Lemma ulp_exponent_small (x : Q) :
  (0 < x)%Q -> (x < 2 ^ 53)%Q -> ulp_exponent x <= 0.
Proof.
  intros Hx H. pose proof (floor_log2_lt x 53 Hx H). unfold ulp_exponent. lia.
Qed.

Lemma scaled_integer (c e : Z) :
  e <= 0 -> (inject_Z c / 2 ^ e == inject_Z (c * 2 ^ (- e)))%Q.
Proof.
  intros He. rewrite inject_Z_mult, two_power_Z by lia.
  rewrite Qpower_opp. field.
  intros H. pose proof (two_power_pos e) as P. rewrite H in P. discriminate P.
Qed.

(** Below [2^53], rounding does not cross an integer. *)
Lemma round_positive_le_integer (x q : Q) (C : Z) :
  (0 < x)%Q ->
  (x < 2 ^ 53)%Q ->
  (x <= inject_Z C)%Q ->
  round_positive x = Some q ->
  (q <= inject_Z C)%Q.
Proof.
  intros Hx H HC. rewrite round_positive_eq.
  pose proof (ulp_exponent_small x Hx H) as E.
  set (e := ulp_exponent x) in *. set (m := round_half_even (x / 2 ^ e)).
  destruct (Qle_bool (2 ^ 1024) (inject_Z m * 2 ^ e)); [discriminate |].
  intros Q. injection Q as <-.
  pose proof (two_power_pos e) as P.
  assert (M : m <= C * 2 ^ (- e)).
  { apply round_half_even_le. rewrite <- scaled_integer by exact E.
    apply Qmult_le_compat_r; [exact HC |].
    apply Qlt_le_weak, Qinv_lt_0_compat, P. }
  rewrite Zle_Qle, <- scaled_integer in M by exact E.
  assert (B : (inject_Z m * 2 ^ e <= inject_Z C / 2 ^ e * 2 ^ e)%Q)
    by (apply Qmult_le_compat_r; [exact M | qlra]).
  rewrite scaled_times in B. exact B.
Qed.

Lemma inject_Z_pos (c : Z) : 0 < c -> (0 < inject_Z c)%Q.
Proof. intros H. change 0%Q with (inject_Z 0). rewrite <- Zlt_Qlt. exact H. Qed.


Lemma float_of_Q_pos (x : Q) : (0 < x)%Q -> float_of_Q x = round_positive x.
Proof.
  intros H. unfold float_of_Q.
  assert (C : (x ?= 0)%Q = Gt) by (apply Qgt_alt; exact H).
  rewrite C. reflexivity.
Qed.


Lemma float_of_Q_zero (x : Q) : (x == 0)%Q -> float_of_Q x = Some 0%Q.
Proof.
  intros H. unfold float_of_Q.
  assert (C : (x ?= 0)%Q = Eq) by (apply Qeq_alt; exact H).
  rewrite C. reflexivity.
Qed.

Lemma Q_sign_cases (x : Q) : (x == 0)%Q \/ (0 < x)%Q \/ (x < 0)%Q.
Proof.
  destruct (Q_dec x 0) as [[H | H] | H]; auto.
Qed.




(** Between 0 and an integer below [2^53], the float stays there. *)
Lemma float_of_Q_between (x : Q) (C : Z) :
  (0 <= x)%Q ->
  (x <= inject_Z C)%Q ->
  C < 2 ^ 53 ->
  exists q : Q, float_of_Q x = Some q /\ (0 <= q)%Q /\ (q <= inject_Z C)%Q.
Proof.
  intros L U HC.
  assert (B : (inject_Z C < 2 ^ 53)%Q)
    by (rewrite <- two_power_Z by lia; rewrite <- Zlt_Qlt; exact HC).
  destruct (Q_sign_cases x) as [Z | [P | N]].
  - rewrite (float_of_Q_zero x Z). exists 0%Q.
    split; [reflexivity |]. split; [apply Qle_refl |]. rewrite <- Z. exact U.
  - rewrite (float_of_Q_pos x P).
    destruct (round_positive_returns x P) as (q & R).
    { pose proof (two_power_lt 53 1023 ltac:(lia)). qlra. }
    exists q. split; [exact R |].
    destruct (round_positive_near x q P R) as (Q0 & _).
    split; [exact Q0 |].
    apply (round_positive_le_integer x q C P); [qlra | exact U | exact R].
  - qlra.
Qed.



(** ** Division and the average gain *)

Lemma truediv_nonzero (a b : Z) :
  b <> 0 ->
  truediv a b
  = match float_of_Q (quotient a b) with
    | Some q => Returns q
    | None => Raises OverflowError
    end.
Proof.
  intros H. unfold truediv. destruct (Z.eqb_spec b 0); [contradiction | reflexivity].
Qed.

(** The division on some inputs: a quotient that is no double, a negative
    one, an integer above [2^53], the two sides of the overflow threshold,
    and quotients below the least positive double. *)
Lemma truediv_examples :
  (exists q : Q, truediv 302 100 = Returns q
                 /\ Qeq q (Qmake 6800435437329449 (2 ^ 51)))
  /\ (exists q : Q, truediv (-5) 3 = Returns q
                    /\ Qeq q (Qmake (-7505999378950827) (2 ^ 52)))
  /\ (exists q : Q, truediv (2 ^ 53 + 1) 1 = Returns q /\ Qeq q (inject_Z (2 ^ 53)))
  /\ (exists q : Q, truediv (2 ^ 53 + 3) 1 = Returns q /\ Qeq q (inject_Z (2 ^ 53 + 4)))
  /\ (exists q : Q, truediv (2 ^ 1024 - 2 ^ 970 - 1) 1 = Returns q
                    /\ Qeq q (inject_Z (2 ^ 1024 - 2 ^ 971)))
  /\ truediv (2 ^ 1024 - 2 ^ 970) 1 = Raises OverflowError
  /\ (exists q : Q, truediv 1 (2 ^ 1075) = Returns q /\ Qeq q 0)
  /\ (exists q : Q, truediv 3 (2 ^ 1075) = Returns q /\ Qeq q (Qmake 1 (2 ^ 1073)))
  /\ truediv 1 0 = Raises ZeroDivisionError.
Proof.
  repeat split;
    try (eexists; split; [vm_compute; reflexivity | vm_compute; reflexivity]);
    vm_compute; reflexivity.
Qed.



(** ** The histogram *)

Lemma fold_add_shift (xs : list Z) (acc : Z) :
  fold_left Z.add xs acc = acc + fold_left Z.add xs 0.
Proof.
  revert acc. induction xs as [| x xs IH]; intros acc; simpl.
  - lia.
  - rewrite (IH (acc + x)), (IH x). lia.
Qed.

Lemma sum_cons (x : Z) (xs : list Z) : sum (x :: xs) = x + sum xs.
Proof. unfold sum. simpl. apply fold_add_shift. Qed.

Lemma dict_lookup_setitem (d : dict) (k k' : Action) (v : Z) :
  dict_lookup (dict_setitem d k v) k'
  = if Action_eqb k k' then Some v else dict_lookup d k'.
Proof.
  induction d as [| [k0 v0] d IH]; simpl.
  - reflexivity.
  - destruct (Action_eqb k0 k) eqn:E0; simpl.
    + apply Action_eqb_eq in E0. subst k0.
      destruct (Action_eqb k k'); reflexivity.
    + destruct (Action_eqb k0 k') eqn:E1.
      * apply Action_eqb_eq in E1. subst k0.
        destruct (Action_eqb k k') eqn:E2; [| reflexivity].
        apply Action_eqb_eq in E2. subst k'.
        rewrite Action_eqb_refl in E0. discriminate.
      * exact IH.
Qed.

Lemma sum_values_setitem (d : dict) (k : Action) (v : Z) :
  sum (dict_values (dict_setitem d k v)) = sum (dict_values d) + v - stored d k.
Proof.
  unfold stored, dict_values.
  induction d as [| [k0 v0] d IH]; cbn [dict_setitem dict_lookup map snd].
  - unfold sum. simpl. lia.
  - destruct (Action_eqb k0 k); cbn [map snd].
    + rewrite !sum_cons. lia.
    + rewrite !sum_cons, IH. lia.
Qed.

Lemma histogram_notify (a : Action) (payoff : Z) (r : StrategyReport) :
  action_histogram (notify a payoff r)
  = dict_setitem (snd (defaultdict_getitem (action_histogram r) a)) a
                 (stored (action_histogram r) a + 1).
Proof.
  unfold notify, defaultdict_getitem, stored.
  destruct (dict_lookup (action_histogram r) a); reflexivity.
Qed.

Lemma total_gain_notify (a : Action) (payoff : Z) (r : StrategyReport) :
  total_gain (notify a payoff r) = total_gain r + payoff.
Proof.
  unfold notify. destruct (defaultdict_getitem (action_histogram r) a).
  reflexivity.
Qed.

Lemma dict_lookup_notify (a b : Action) (payoff : Z) (r : StrategyReport) :
  dict_lookup (action_histogram (notify a payoff r)) b
  = if Action_eqb a b then Some (stored (action_histogram r) a + 1)
    else dict_lookup (action_histogram r) b.
Proof.
  rewrite histogram_notify, dict_lookup_setitem.
  destruct (Action_eqb a b) eqn:E; [reflexivity |].
  unfold defaultdict_getitem.
  destruct (dict_lookup (action_histogram r) a); simpl; [reflexivity |].
  rewrite dict_lookup_setitem, E. reflexivity.
Qed.

Lemma n_rounds_notify (a : Action) (payoff : Z) (r : StrategyReport) :
  n_rounds (notify a payoff r) = n_rounds r + 1.
Proof.
  unfold n_rounds. rewrite histogram_notify, sum_values_setitem.
  unfold defaultdict_getitem, stored.
  destruct (dict_lookup (action_histogram r) a) eqn:E; simpl.
  - rewrite E. lia.
  - rewrite sum_values_setitem, dict_lookup_setitem, Action_eqb_refl.
    unfold stored. rewrite E. lia.
Qed.

Lemma count_played_nonneg (a : Action) (calls : list (Action * Z)) :
  0 <= count_played a calls.
Proof.
  induction calls as [| c calls IH]; simpl; [lia |].
  destruct (Action_eqb (fst c) a); lia.
Qed.

Lemma dict_lookup_notify_all (a : Action) (calls : list (Action * Z)) (r : StrategyReport) :
  dict_lookup (action_histogram (notify_all calls r)) a
  = if count_played a calls =? 0 then dict_lookup (action_histogram r) a
    else Some (stored (action_histogram r) a + count_played a calls).
Proof.
  revert r. induction calls as [| c calls IH]; intros r; simpl.
  - reflexivity.
  - unfold notify_all in IH. rewrite IH. clear IH.
    pose proof (count_played_nonneg a calls) as Hc.
    unfold stored at 1. rewrite dict_lookup_notify.
    destruct (Action_eqb (fst c) a) eqn:E.
    + apply Action_eqb_eq in E. rewrite E.
      destruct (Z.eqb_spec (count_played a calls) 0) as [E0 | N0];
        destruct (Z.eqb_spec (1 + count_played a calls) 0); try lia.
      * rewrite E0. reflexivity.
      * f_equal. lia.
    + simpl. destruct (count_played a calls =? 0); [reflexivity |].
      unfold stored. reflexivity.
Qed.

(** C8, as the program has it: after any notifications on a new strategy
    report, the histogram has an entry exactly for the actions notified at
    least once, holding how many times; an action never notified has no
    entry, and reading it gives the default, zero. *)
Theorem histogram_entries_are_the_played_actions
  (calls : list (Action * Z)) (a : Action) :
  dict_lookup (action_histogram (notify_all calls StrategyReport_init)) a
  = (if count_played a calls =? 0 then None else Some (count_played a calls))
  /\ fst (defaultdict_getitem
            (action_histogram (notify_all calls StrategyReport_init)) a)
     = count_played a calls.
Proof.
  pose proof (dict_lookup_notify_all a calls StrategyReport_init) as H.
  simpl in H. unfold stored in H. simpl in H.
  split; [exact H |].
  unfold defaultdict_getitem. rewrite H.
  destruct (Z.eqb_spec (count_played a calls) 0) as [E | N]; simpl; congruence.
Qed.

(** ** The replay strategy *)

Lemma objects_set_object_same (r : ref) (x : Strategy) (w : World RNG) :
  objects (set_object r x w) r = x.
Proof. unfold set_object. simpl. rewrite Nat.eqb_refl. reflexivity. Qed.

Lemma objects_set_object_other (r r' : ref) (x : Strategy) (w : World RNG) :
  r' <> r -> objects (set_object r x w) r' = objects w r'.
Proof.
  intros H. unfold set_object. simpl.
  destruct (Nat.eqb_spec r' r); [contradiction | reflexivity].
Qed.

Lemma take_turn_replay (self : ref) (first : Action) (last : option Action)
  (w : World RNG) :
  objects w self = ReplayStrategy first last ->
  take_turn self w
  = (Returns match last with None => first | Some a => a end, w).
Proof.
  intros H. unfold take_turn. rewrite H. destruct last; reflexivity.
Qed.

Lemma register_replay (self : ref) (first : Action) (last : option Action)
  (a : Action) (w : World RNG) :
  objects w self = ReplayStrategy first last ->
  register_opponent_action self a w
  = (Returns tt, set_object self (ReplayStrategy first (Some a)) w).
Proof. intros H. unfold register_opponent_action. rewrite H. reflexivity. Qed.

Lemma replay_do_calls (self : ref) (first : Action) (calls : list call) :
  forall (last : option Action) (w : World RNG),
    objects w self = ReplayStrategy first last ->
    fst (do_calls self calls w) = Returns tt
    /\ objects (snd (do_calls self calls w)) self
       = ReplayStrategy first
           match last_registered calls with Some a => Some a | None => last end
    /\ rng (snd (do_calls self calls w)) = rng w
    /\ (forall r, r <> self ->
                  objects (snd (do_calls self calls w)) r = objects w r).
Proof.
  induction calls as [| c calls IH]; intros last w H.
  - simpl. auto.
  - destruct c as [| a]; cbn [do_calls do_call last_registered]; unfold bind.
    + rewrite (take_turn_replay self first last w H). cbn [ret].
      destruct (IH last w H) as (R & O & G & F).
      repeat split; auto.
      rewrite O. destruct (last_registered calls); reflexivity.
    + rewrite (register_replay self first last a w H). cbn [ret].
      destruct (IH (Some a) (set_object self (ReplayStrategy first (Some a)) w)
                   (objects_set_object_same _ _ _)) as (R & O & G & F).
      repeat split; auto.
      * rewrite O. destruct (last_registered calls); reflexivity.
      * intros r Hr. rewrite (F r Hr). apply objects_set_object_other. exact Hr.
Qed.

(** C5: on a replay strategy built with [first], after any calls from
    outside, [take_turn] returns [first] as long as no
    [register_opponent_action] has been received, and from then on the
    action passed to the most recent one; the object holds nothing but
    [first] and that last action, and no call changes anything else. *)
Theorem replay_returns_first_then_last_registered
  (first : Action) (self : ref) (calls : list call) (w : World RNG) :
  objects w self = ReplayStrategy_init first ->
  fst (do_calls self calls w) = Returns tt
  /\ take_turn self (snd (do_calls self calls w))
     = (Returns match last_registered calls with None => first | Some a => a end,
        snd (do_calls self calls w))
  /\ objects (snd (do_calls self calls w)) self
     = ReplayStrategy first (last_registered calls)
  /\ rng (snd (do_calls self calls w)) = rng w
  /\ (forall r, r <> self ->
                objects (snd (do_calls self calls w)) r = objects w r).
Proof.
  intros H.
  destruct (replay_do_calls self first calls None w H) as (R & O & G & F).
  assert (O' : objects (snd (do_calls self calls w)) self
               = ReplayStrategy first (last_registered calls)).
  { rewrite O. destruct (last_registered calls); reflexivity. }
  repeat split; auto.
  apply take_turn_replay. exact O'.
Qed.

(** ** Rounds *)

Lemma register_returns (self : ref) (a : Action) (w : World RNG) :
  fst (register_opponent_action self a w) = Returns tt.
Proof.
  unfold register_opponent_action. destruct (objects w self); reflexivity.
Qed.

(** A round in which both players take their turn. *)
Lemma play_round_returns (e : IPDEngine) (w w1 w2 : World RNG) (act_p1 act_p2 : Action) :
  take_turn (_p1 e) w = (Returns act_p1, w1) ->
  take_turn (_p2 e) w1 = (Returns act_p2, w2) ->
  play_round (e, w)
  = (Returns tt,
     (notify_report_2 act_p2 (snd (compute_payoff act_p1 act_p2))
        (notify_report_1 act_p1 (fst (compute_payoff act_p1 act_p2)) e),
      snd (register_opponent_action (_p2 e) act_p1
             (snd (register_opponent_action (_p1 e) act_p2 w2))))).
Proof.
  intros H1 H2.
  unfold play_round, bind, get_self, on_world, set_self. cbn [fst snd].
  rewrite H1. cbn [fst snd]. rewrite H2.
  destruct (compute_payoff act_p1 act_p2) as [payoff_1 payoff_2]. cbn [fst snd].
  pose proof (register_returns (_p1 e) act_p2 w2) as R1.
  destruct (register_opponent_action (_p1 e) act_p2 w2) as [o1 w3].
  cbn [fst snd] in *. subst o1.
  pose proof (register_returns (_p2 e) act_p1 w3) as R2.
  destruct (register_opponent_action (_p2 e) act_p1 w3) as [o2 w4].
  cbn [fst snd] in *. subst o2. reflexivity.
Qed.

(** A round whose first player fails to take its turn changes neither
    report. *)
Lemma play_round_raises_p1 (e : IPDEngine) (w w1 : World RNG) (x : exception) :
  take_turn (_p1 e) w = (Raises x, w1) ->
  play_round (e, w) = (Raises x, (e, w1)).
Proof.
  intros H. unfold play_round, bind, get_self, on_world. cbn [fst snd].
  rewrite H. reflexivity.
Qed.

Lemma repeat_py_S {St : Type} (body : Py St unit) (k : nat) (s : St) :
  repeat_py (S k) body s
  = match body s with
    | (Returns _, s') => repeat_py k body s'
    | (Raises x, s') => (Raises x, s')
    end.
Proof. reflexivity. Qed.

(** ** The program's own game: a replay strategy against a cooperative one *)

Lemma take_turn_cooperative (self : ref) (w : World RNG) :
  objects w self = CooperativeStrategy ->
  take_turn self w = (Returns COOPERATE, w).
Proof. intros H. unfold take_turn. rewrite H. reflexivity. Qed.

Lemma play_round_replay_cooperative
  (e : IPDEngine) (w : World RNG) (first : Action) (last : option Action) :
  _p1 e <> _p2 e ->
  objects w (_p1 e) = ReplayStrategy first last ->
  objects w (_p2 e) = CooperativeStrategy ->
  exists w' : World RNG,
    play_round (e, w)
    = (Returns tt,
       (notify_report_2 COOPERATE
          (snd (compute_payoff match last with None => first | Some a => a end
                               COOPERATE))
          (notify_report_1 match last with None => first | Some a => a end
             (fst (compute_payoff match last with None => first | Some a => a end
                                  COOPERATE)) e),
        w'))
    /\ objects w' (_p1 e) = ReplayStrategy first (Some COOPERATE)
    /\ objects w' (_p2 e) = CooperativeStrategy.
Proof.
  intros D O1 O2.
  rewrite (play_round_returns e w w w _ COOPERATE
             (take_turn_replay _ _ _ _ O1) (take_turn_cooperative _ _ O2)).
  rewrite (register_replay _ _ _ COOPERATE w O1). cbn [snd].
  assert (O2' : objects (set_object (_p1 e) (ReplayStrategy first (Some COOPERATE)) w)
                        (_p2 e) = CooperativeStrategy).
  { rewrite objects_set_object_other; [exact O2 | congruence]. }
  unfold register_opponent_action at 1. rewrite O2'. cbn [snd].
  eexists. split; [reflexivity |]. split; [| exact O2'].
  apply objects_set_object_same.
Qed.

Lemma rounds_replay_cooperative (k : nat) :
  forall (e : IPDEngine) (w : World RNG),
    _p1 e <> _p2 e ->
    objects w (_p1 e) = ReplayStrategy DEFECT (Some COOPERATE) ->
    objects w (_p2 e) = CooperativeStrategy ->
    exists w' : World RNG,
      repeat_py k play_round (e, w)
      = (Returns tt,
         (Nat.iter k
            (fun e' => notify_report_2 COOPERATE 3 (notify_report_1 COOPERATE 3 e'))
            e,
          w'))
      /\ objects w' (_p1 e) = ReplayStrategy DEFECT (Some COOPERATE)
      /\ objects w' (_p2 e) = CooperativeStrategy.
Proof.
  induction k as [| k IH]; intros e w D O1 O2.
  - exists w. repeat split; assumption.
  - destruct (play_round_replay_cooperative e w DEFECT (Some COOPERATE) D O1 O2)
      as (w1 & R & O1' & O2').
    cbn [compute_payoff Action_eqb andb fst snd] in R.
    rewrite repeat_py_S, R.
    destruct (IH (notify_report_2 COOPERATE 3 (notify_report_1 COOPERATE 3 e)) w1
                 D O1' O2') as (w' & R' & O1'' & O2'').
    exists w'. rewrite Nat.iter_succ_r. repeat split; assumption.
Qed.

Lemma gains_of_cooperate_rounds (k : nat) (e : IPDEngine) :
  total_gain (_report_1
                (Nat.iter k
                   (fun e' => notify_report_2 COOPERATE 3 (notify_report_1 COOPERATE 3 e'))
                   e))
  = total_gain (_report_1 e) + 3 * Z.of_nat k
  /\ total_gain (_report_2
                   (Nat.iter k
                      (fun e' => notify_report_2 COOPERATE 3 (notify_report_1 COOPERATE 3 e'))
                      e))
     = total_gain (_report_2 e) + 3 * Z.of_nat k
  /\ _p1 (Nat.iter k
            (fun e' => notify_report_2 COOPERATE 3 (notify_report_1 COOPERATE 3 e'))
            e) = _p1 e
  /\ _p2 (Nat.iter k
            (fun e' => notify_report_2 COOPERATE 3 (notify_report_1 COOPERATE 3 e'))
            e) = _p2 e.
Proof.
  induction k as [| k (G1 & G2 & P1 & P2)].
  - simpl. repeat split; lia.
  - rewrite Nat2Z.inj_succ, Nat.iter_succ.
    cbn [notify_report_1 notify_report_2 _report_1 _report_2 _p1 _p2].
    rewrite !total_gain_notify, G1, G2. repeat split; auto; lia.
Qed.

(** C3: a replay strategy that starts with a defection, against a
    cooperative strategy.  Round 1 is defect against cooperate, with payoff
    (5, 0); in each of the rounds 2 to 100 both cooperate, with payoff
    (3, 3); the game of 100 rounds ends with total gains 302 and 297, and
    player 1 wins. *)
Theorem replay_defect_versus_cooperative_100
  (player_1 player_2 : ref) (w : World RNG) :
  player_1 <> player_2 ->
  objects w player_1 = ReplayStrategy_init DEFECT ->
  objects w player_2 = CooperativeStrategy ->
  (fst (take_turn player_1 w) = Returns DEFECT
   /\ fst (take_turn player_2 w) = Returns COOPERATE
   /\ compute_payoff DEFECT COOPERATE = (5, 0)
   /\ fst (after_rounds 1 (IPDEngine_init player_1 player_2, w))
      = notify_report_2 COOPERATE 0
          (notify_report_1 DEFECT 5 (IPDEngine_init player_1 player_2)))
  /\ (forall k : nat,
        (1 <= k < 100)%nat ->
        fst (take_turn player_1
               (snd (after_rounds k (IPDEngine_init player_1 player_2, w))))
        = Returns COOPERATE
        /\ fst (take_turn player_2
                  (snd (after_rounds k (IPDEngine_init player_1 player_2, w))))
           = Returns COOPERATE
        /\ compute_payoff COOPERATE COOPERATE = (3, 3)
        /\ fst (after_rounds (S k) (IPDEngine_init player_1 player_2, w))
           = notify_report_2 COOPERATE 3
               (notify_report_1 COOPERATE 3
                  (fst (after_rounds k (IPDEngine_init player_1 player_2, w)))))
  /\ exists (rep : Report) (s : Game),
       play_game (Some 100) (IPDEngine_init player_1 player_2, w) = (Returns rep, s)
       /\ total_gain (strategy_report_p1 rep) = 302
       /\ total_gain (strategy_report_p2 rep) = 297
       /\ winner rep = Some player_1.
Proof.
  intros D O1 O2.
  destruct (play_round_replay_cooperative (IPDEngine_init player_1 player_2) w
              DEFECT None D O1 O2) as (w1 & R & O1' & O2').
  cbn [compute_payoff Action_eqb andb fst snd] in R.
  assert (A : forall j : nat,
             exists wj : World RNG,
               repeat_py (S j) play_round (IPDEngine_init player_1 player_2, w)
               = (Returns tt,
                  (Nat.iter j
                     (fun e' => notify_report_2 COOPERATE 3
                                  (notify_report_1 COOPERATE 3 e'))
                     (notify_report_2 COOPERATE 0
                        (notify_report_1 DEFECT 5
                           (IPDEngine_init player_1 player_2))),
                   wj))
               /\ objects wj player_1 = ReplayStrategy DEFECT (Some COOPERATE)
               /\ objects wj player_2 = CooperativeStrategy).
  { intros j. rewrite repeat_py_S, R.
    apply (rounds_replay_cooperative j
             (notify_report_2 COOPERATE 0
                (notify_report_1 DEFECT 5 (IPDEngine_init player_1 player_2)))
             w1 D O1' O2'). }
  split; [| split].
  - rewrite (take_turn_replay _ _ _ _ O1), (take_turn_cooperative _ _ O2).
    repeat split.
    unfold after_rounds. destruct (A 0%nat) as (w0 & E & _). rewrite E. reflexivity.
  - intros k Hk. destruct k as [| j]; [lia |].
    unfold after_rounds.
    destruct (A j) as (wj & Ej & Oj1 & Oj2).
    destruct (A (S j)) as (wk & Ek & _).
    rewrite Ej, Ek. cbn [fst snd].
    rewrite (take_turn_replay _ _ _ _ Oj1), (take_turn_cooperative _ _ Oj2).
    repeat split.
  - destruct (A 99%nat) as (wn & E & _).
    destruct (gains_of_cooperate_rounds 99
                (notify_report_2 COOPERATE 0
                   (notify_report_1 DEFECT 5 (IPDEngine_init player_1 player_2))))
      as (G1 & G2 & P1 & P2).
    unfold play_game, bind at 1. cbn [ret].
    replace (Z.to_nat 100) with 100%nat by reflexivity.
    unfold bind at 1. rewrite E. unfold bind, get_self, ret. cbn [fst snd].
    eexists. eexists. split; [reflexivity |].
    cbn [strategy_report_p1 strategy_report_p2 p1 p2].
    assert (T1 : total_gain
                   (_report_1
                      (Nat.iter 99
                         (fun e' => notify_report_2 COOPERATE 3
                                      (notify_report_1 COOPERATE 3 e'))
                         (notify_report_2 COOPERATE 0
                            (notify_report_1 DEFECT 5
                               (IPDEngine_init player_1 player_2))))) = 302).
    { rewrite G1. reflexivity. }
    assert (T2 : total_gain
                   (_report_2
                      (Nat.iter 99
                         (fun e' => notify_report_2 COOPERATE 3
                                      (notify_report_1 COOPERATE 3 e'))
                         (notify_report_2 COOPERATE 0
                            (notify_report_1 DEFECT 5
                               (IPDEngine_init player_1 player_2))))) = 297).
    { rewrite G2. reflexivity. }
    split; [exact T1 |]. split; [exact T2 |].
    unfold winner. cbn [strategy_report_p1 strategy_report_p2 p1 p2].
    rewrite T1, T2, P1. reflexivity.
Qed.

(** ** The number of rounds of a game *)

Lemma take_turn_returns (self : ref) (w : World RNG) :
  objects w self <> UniformStrategy ->
  exists (a : Action) (w' : World RNG),
    take_turn self w = (Returns a, w') /\ objects w' = objects w.
Proof.
  intros H. unfold take_turn.
  destruct (objects w self) as [| | | first [last |] | p]; try contradiction;
    try (eexists; eexists; split; reflexivity).
  unfold bind, draw. destruct (random (rng w)) as [x g].
  destruct (Qlt_le_dec x p); eexists; eexists; split; reflexivity.
Qed.

Lemma register_keeps_class (self r : ref) (a : Action) (w : World RNG) :
  objects (snd (register_opponent_action self a w)) r = UniformStrategy
  <-> objects w r = UniformStrategy.
Proof.
  unfold register_opponent_action.
  destruct (objects w self) as [| | | first last | p] eqn:E; cbn [snd];
    try reflexivity.
  unfold set_object. cbn [objects].
  destruct (Nat.eqb_spec r self) as [-> | N]; [| reflexivity].
  rewrite E. split; discriminate.
Qed.

Lemma play_round_counts (e : IPDEngine) (w : World RNG) :
  objects w (_p1 e) <> UniformStrategy ->
  objects w (_p2 e) <> UniformStrategy ->
  exists (e' : IPDEngine) (w' : World RNG),
    play_round (e, w) = (Returns tt, (e', w'))
    /\ _p1 e' = _p1 e /\ _p2 e' = _p2 e
    /\ n_rounds (_report_1 e') = n_rounds (_report_1 e) + 1
    /\ n_rounds (_report_2 e') = n_rounds (_report_2 e) + 1
    /\ (forall r, objects w' r = UniformStrategy <-> objects w r = UniformStrategy).
Proof.
  intros H1 H2.
  destruct (take_turn_returns (_p1 e) w H1) as (a1 & w1 & T1 & K1).
  assert (H2' : objects w1 (_p2 e) <> UniformStrategy) by (rewrite K1; exact H2).
  destruct (take_turn_returns (_p2 e) w1 H2') as (a2 & w2 & T2 & K2).
  rewrite (play_round_returns e w w1 w2 a1 a2 T1 T2).
  eexists. eexists. split; [reflexivity |].
  cbn [notify_report_1 notify_report_2 _p1 _p2 _report_1 _report_2].
  rewrite !n_rounds_notify. repeat split; try reflexivity;
    rewrite !register_keeps_class, K2, K1; auto.
Qed.

Lemma rounds_count (k : nat) :
  forall (e : IPDEngine) (w : World RNG),
    objects w (_p1 e) <> UniformStrategy ->
    objects w (_p2 e) <> UniformStrategy ->
    exists (e' : IPDEngine) (w' : World RNG),
      repeat_py k play_round (e, w) = (Returns tt, (e', w'))
      /\ _p1 e' = _p1 e /\ _p2 e' = _p2 e
      /\ n_rounds (_report_1 e') = n_rounds (_report_1 e) + Z.of_nat k
      /\ n_rounds (_report_2 e') = n_rounds (_report_2 e) + Z.of_nat k.
Proof.
  induction k as [| k IH]; intros e w H1 H2.
  - exists e, w. cbn [repeat_py ret Z.of_nat]. repeat split; lia.
  - destruct (play_round_counts e w H1 H2) as (e1 & w1 & R & P1 & P2 & N1 & N2 & K).
    assert (H1' : objects w1 (_p1 e1) <> UniformStrategy) by (rewrite P1, K; exact H1).
    assert (H2' : objects w1 (_p2 e1) <> UniformStrategy) by (rewrite P2, K; exact H2).
    destruct (IH e1 w1 H1' H2') as (e' & w' & R' & P1' & P2' & N1' & N2').
    exists e', w'. rewrite repeat_py_S, R, Nat2Z.inj_succ.
    repeat split; try congruence; lia.
Qed.

(** The round count of a game whose players are of any class but
    [UniformStrategy]: for every [n >= 0], [play_game(n)] on a new engine
    returns a report in which both strategy reports have [n] rounds, the
    sum of the counts of their histograms. *)
Theorem play_game_round_count
  (n : Z) (player_1 player_2 : ref) (w : World RNG) :
  0 <= n ->
  objects w player_1 <> UniformStrategy ->
  objects w player_2 <> UniformStrategy ->
  exists (rep : Report) (s : Game),
    play_game (Some n) (IPDEngine_init player_1 player_2, w) = (Returns rep, s)
    /\ n_rounds (strategy_report_p1 rep) = n
    /\ n_rounds (strategy_report_p2 rep) = n
    /\ sum (dict_values (action_histogram (strategy_report_p1 rep))) = n
    /\ sum (dict_values (action_histogram (strategy_report_p2 rep))) = n.
Proof.
  intros Hn H1 H2.
  destruct (rounds_count (Z.to_nat n) (IPDEngine_init player_1 player_2) w H1 H2)
    as (e' & w' & R & _ & _ & N1 & N2).
  rewrite Z2Nat.id in N1, N2 by exact Hn.
  unfold play_game, bind at 1. cbn [ret]. unfold bind at 1. rewrite R.
  unfold bind, get_self, ret. cbn [fst snd].
  eexists. eexists. split; [reflexivity |].
  cbn [strategy_report_p1 strategy_report_p2].
  change (n_rounds (_report_1 e') = n /\ n_rounds (_report_2 e') = n
          /\ n_rounds (_report_1 e') = n /\ n_rounds (_report_2 e') = n).
  cbn in N1, N2. repeat split; lia.
Qed.

Lemma take_turn_uniform (self : ref) (w : World RNG) :
  objects w self = UniformStrategy ->
  take_turn self w
  = (Raises (KeyError (SInt (fst (randbelow Action_class_len (rng w))))),
     {| objects := objects w; rng := snd (randbelow Action_class_len (rng w)) |}).
Proof.
  intros H. unfold take_turn. rewrite H.
  unfold choice_Action, bind, draw.
  destruct (randbelow Action_class_len (rng w)) as [i g]. reflexivity.
Qed.

(** A round with a [UniformStrategy] among its players raises before
    either report is notified. *)
Lemma play_round_uniform_raises (e : IPDEngine) (w : World RNG) :
  objects w (_p1 e) = UniformStrategy \/ objects w (_p2 e) = UniformStrategy ->
  exists (i : Z) (w' : World RNG),
    play_round (e, w) = (Raises (KeyError (SInt i)), (e, w')).
Proof.
  intros H.
  assert (C : objects w (_p1 e) = UniformStrategy
              \/ objects w (_p1 e) <> UniformStrategy
                 /\ objects w (_p2 e) = UniformStrategy).
  { destruct (objects w (_p1 e)); destruct H as [H | H];
      try discriminate H; auto; right; split; auto; discriminate. }
  destruct C as [U1 | [N1 U2]].
  - eexists. eexists. apply play_round_raises_p1, take_turn_uniform, U1.
  - destruct (take_turn_returns (_p1 e) w N1) as (a1 & w1 & T1 & K1).
    rewrite <- K1 in U2.
    unfold play_round, bind, get_self, on_world. cbn [fst snd].
    rewrite T1. cbn [fst snd]. rewrite (take_turn_uniform _ _ U2).
    eexists. eexists. reflexivity.
Qed.

(** C2, where the program departs from it: a game of one round or more
    with a [UniformStrategy] among its players does not reach the end of
    its first round.  [take_turn] subscripts the class [Action] with an
    integer, which raises [KeyError]; no report is returned, and the
    engine's two strategy reports still count zero rounds. *)
Theorem play_game_with_uniform_player_raises
  (n : Z) (player_1 player_2 : ref) (w : World RNG) :
  1 <= n ->
  objects w player_1 = UniformStrategy \/ objects w player_2 = UniformStrategy ->
  exists (i : Z) (s : Game),
    play_game (Some n) (IPDEngine_init player_1 player_2, w)
    = (Raises (KeyError (SInt i)), s)
    /\ n_rounds (_report_1 (fst s)) = 0
    /\ n_rounds (_report_2 (fst s)) = 0.
Proof.
  intros Hn H.
  destruct (play_round_uniform_raises (IPDEngine_init player_1 player_2) w H)
    as (i & w' & R).
  unfold play_game, bind at 1. cbn [ret]. unfold bind at 1.
  replace (Z.to_nat n) with (S (Z.to_nat (n - 1))) by lia.
  rewrite repeat_py_S, R.
  exists i. eexists. split; [reflexivity |]. split; reflexivity.
Qed.

(** C7, as the program has it: for every negative [n_turns],
    [play_game(n_turns)] raises nothing; it plays no round, leaves the
    engine and the world as they are, and returns the report of the
    engine's two strategy reports as they stand. *)
Theorem play_game_negative_plays_no_round
  (n_turns : Z) (e : IPDEngine) (w : World RNG) :
  n_turns < 0 ->
  play_game (Some n_turns) (e, w)
  = (Returns {| p1 := _p1 e;
                strategy_report_p1 := _report_1 e;
                p2 := _p2 e;
                strategy_report_p2 := _report_2 e |},
     (e, w)).
Proof.
  intros H. destruct n_turns as [| p | p]; try lia. reflexivity.
Qed.

(** C10: the text of a report whose two strategy reports have no round is
    never produced: [__str__] raises [ZeroDivisionError], from the average
    gain it evaluates. *)
Theorem report_str_without_rounds_raises (rep : Report) (w : World RNG) :
  n_rounds (strategy_report_p1 rep) = 0 ->
  n_rounds (strategy_report_p2 rep) = 0 ->
  Report_str rep w = (Raises ZeroDivisionError, w).
Proof.
  intros H1 H2.
  unfold Report_str, bind, winner_repr, value_of, ret, average_gain, truediv.
  rewrite H1. reflexivity.
Qed.

(** * Further properties *)

(** ** Strategy reports under any notifications *)

Lemma notify_all_last (calls : list (Action * Z)) (c : Action * Z) (r : StrategyReport) :
  notify_all (calls ++ [c])%list r = notify (fst c) (snd c) (notify_all calls r).
Proof. unfold notify_all. rewrite fold_left_app. reflexivity. Qed.

Lemma sum_last (xs : list Z) (x : Z) : sum (xs ++ [x])%list = sum xs + x.
Proof. unfold sum. rewrite fold_left_app. reflexivity. Qed.

(** X2: whatever a strategy report holds, notifications add one round each
    and their payoffs to the total gain. *)
Theorem notify_all_counts_and_sums (calls : list (Action * Z)) (r : StrategyReport) :
  n_rounds (notify_all calls r) = n_rounds r + Z.of_nat (List.length calls)
  /\ total_gain (notify_all calls r) = total_gain r + sum (map snd calls).
Proof.
  induction calls as [| c calls [IHn IHg]] using rev_ind.
  - cbn. split; lia.
  - rewrite notify_all_last, n_rounds_notify, total_gain_notify, IHn, IHg.
    rewrite List.length_app, map_app, Nat2Z.inj_add.
    change (map snd [c]) with [snd c]. rewrite sum_last.
    change (Z.of_nat (List.length [c])) with 1. split; lia.
Qed.

Lemma Action_eqb_sym (a b : Action) : Action_eqb a b = Action_eqb b a.
Proof. destruct a, b; reflexivity. Qed.

Lemma existsb_Action_In (a : Action) (l : list Action) :
  existsb (Action_eqb a) l = true <-> In a l.
Proof.
  rewrite existsb_exists. split.
  - intros (b & Hb & E). apply Action_eqb_eq in E. subst b. exact Hb.
  - intros H. exists a. split; [exact H | apply Action_eqb_refl].
Qed.

Lemma first_occurrences_last (l : list Action) (a : Action) :
  first_occurrences (l ++ [a])%list
  = if existsb (Action_eqb a) (first_occurrences l) then first_occurrences l
    else (first_occurrences l ++ [a])%list.
Proof. unfold first_occurrences. rewrite fold_left_app. reflexivity. Qed.

Lemma first_occurrences_NoDup (l : list Action) : NoDup (first_occurrences l).
Proof.
  induction l as [| a l IH] using rev_ind.
  - constructor.
  - rewrite first_occurrences_last.
    destruct (existsb (Action_eqb a) (first_occurrences l)) eqn:E; [exact IH |].
    apply NoDup_app; [exact IH | repeat constructor; intros [] |].
    intros b Hb [<- | []].
    apply existsb_Action_In in Hb. congruence.
Qed.

Lemma count_played_last (a : Action) (calls : list (Action * Z)) (c : Action * Z) :
  count_played a (calls ++ [c])%list
  = count_played a calls + (if Action_eqb (fst c) a then 1 else 0).
Proof.
  induction calls as [| c' calls IH]; cbn [app count_played].
  - lia.
  - rewrite IH. lia.
Qed.

Lemma first_occurrences_played (a : Action) (calls : list (Action * Z)) :
  existsb (Action_eqb a) (first_occurrences (map fst calls))
  = negb (count_played a calls =? 0).
Proof.
  induction calls as [| c calls IH] using rev_ind.
  - reflexivity.
  - rewrite map_app, count_played_last. change (map fst [c]) with [fst c].
    rewrite first_occurrences_last.
    pose proof (count_played_nonneg a calls) as Hc.
    assert (P : negb (count_played a calls + 1 =? 0) = true).
    { destruct (Z.eqb_spec (count_played a calls + 1) 0); [lia | reflexivity]. }
    destruct (Action_eqb (fst c) a) eqn:Ea.
    + apply Action_eqb_eq in Ea. subst a. rewrite P.
      destruct (existsb (Action_eqb (fst c)) (first_occurrences (map fst calls)))
        eqn:E; [exact E |].
      rewrite existsb_app. cbn [existsb]. rewrite Action_eqb_refl.
      apply orb_true_r.
    + rewrite Z.add_0_r.
      destruct (existsb (Action_eqb (fst c)) (first_occurrences (map fst calls)));
        [exact IH |].
      rewrite existsb_app. cbn [existsb].
      rewrite (Action_eqb_sym a), Ea, !orb_false_r. exact IH.
Qed.

Lemma dict_lookup_of_keys (f : Action -> Z) (keys : list Action) (k : Action) :
  dict_lookup (map (fun a => (a, f a)) keys) k
  = if existsb (Action_eqb k) keys then Some (f k) else None.
Proof.
  induction keys as [| a keys IH]; cbn [map dict_lookup existsb]; [reflexivity |].
  rewrite (Action_eqb_sym k a).
  destruct (Action_eqb a k) eqn:E; cbn [orb]; [| exact IH].
  apply Action_eqb_eq in E. subst a. reflexivity.
Qed.

Lemma dict_setitem_new (d : dict) (k : Action) (v : Z) :
  dict_lookup d k = None -> dict_setitem d k v = (d ++ [(k, v)])%list.
Proof.
  induction d as [| [k0 v0] d IH]; cbn [dict_lookup dict_setitem app]; [reflexivity |].
  destruct (Action_eqb k0 k); [discriminate |].
  intros H. rewrite (IH H). reflexivity.
Qed.

Lemma dict_setitem_last (d : dict) (k : Action) (v0 v : Z) :
  dict_lookup d k = None ->
  dict_setitem (d ++ [(k, v0)])%list k v = (d ++ [(k, v)])%list.
Proof.
  induction d as [| [k0 v1] d IH]; cbn [dict_lookup dict_setitem app].
  - rewrite Action_eqb_refl. reflexivity.
  - destruct (Action_eqb k0 k); [discriminate |].
    intros H. rewrite (IH H). reflexivity.
Qed.

Lemma dict_setitem_of_keys (f : Action -> Z) (keys : list Action) (k : Action) (v : Z) :
  NoDup keys ->
  In k keys ->
  dict_setitem (map (fun a => (a, f a)) keys) k v
  = map (fun a => (a, if Action_eqb a k then v else f a)) keys.
Proof.
  induction keys as [| a keys IH]; intros N H; [destruct H |].
  apply NoDup_cons_iff in N. destruct N as [Na N].
  cbn [map dict_setitem].
  destruct (Action_eqb a k) eqn:E.
  - apply Action_eqb_eq in E. subst a. f_equal.
    apply map_ext_in. intros b Hb.
    destruct (Action_eqb b k) eqn:Eb; [| reflexivity].
    apply Action_eqb_eq in Eb. subst b. contradiction.
  - f_equal. apply IH; [exact N |].
    destruct H as [-> | H]; [| exact H].
    rewrite Action_eqb_refl in E. discriminate.
Qed.

(** X3: the histogram of a new strategy report after any notifications
    lists the actions notified, each once, in the order in which they were
    first notified, each with the number of its notifications. *)
Theorem histogram_in_order_of_first_play (calls : list (Action * Z)) :
  action_histogram (notify_all calls StrategyReport_init)
  = map (fun a => (a, count_played a calls)) (first_occurrences (map fst calls)).
Proof.
  induction calls as [| c calls IH] using rev_ind; [reflexivity |].
  rewrite notify_all_last, histogram_notify, IH. clear IH.
  rewrite map_app. change (map fst [c]) with [fst c].
  rewrite first_occurrences_last.
  unfold defaultdict_getitem, stored.
  pose proof (dict_lookup_of_keys (fun a => count_played a calls)
                (first_occurrences (map fst calls)) (fst c)) as L.
  cbv beta in L.
  pose proof (first_occurrences_played (fst c) calls) as P.
  destruct (existsb (Action_eqb (fst c)) (first_occurrences (map fst calls))) eqn:E;
    rewrite ?E in L; rewrite L; cbn [snd].
  - rewrite dict_setitem_of_keys;
      [| apply first_occurrences_NoDup | apply existsb_Action_In; exact E].
    apply map_ext. intros a. rewrite count_played_last, (Action_eqb_sym a).
    destruct (Action_eqb (fst c) a) eqn:Ea; [| f_equal; lia].
    apply Action_eqb_eq in Ea. subst a. reflexivity.
  - symmetry in P. apply negb_false_iff, Z.eqb_eq in P.
    rewrite (dict_setitem_new _ _ _ L), (dict_setitem_last _ _ _ _ L).
    rewrite map_app. cbn [map].
    rewrite count_played_last, Action_eqb_refl, P. f_equal.
    apply map_ext_in. intros a Ha. rewrite count_played_last.
    destruct (Action_eqb (fst c) a) eqn:Ea; [| f_equal; lia].
    apply Action_eqb_eq in Ea. subst a.
    apply existsb_Action_In in Ha. congruence.
Qed.

(** ** What every game keeps *)

Lemma play_round_notifies (e : IPDEngine) (w : World RNG) :
  objects w (_p1 e) <> UniformStrategy ->
  objects w (_p2 e) <> UniformStrategy ->
  exists (act_p1 act_p2 : Action) (w' : World RNG),
    play_round (e, w) = (Returns tt, (notify_round act_p1 act_p2 e, w'))
    /\ (forall r, objects w' r = UniformStrategy <-> objects w r = UniformStrategy).
Proof.
  intros H1 H2.
  destruct (take_turn_returns (_p1 e) w H1) as (a1 & w1 & T1 & K1).
  assert (H2' : objects w1 (_p2 e) <> UniformStrategy) by (rewrite K1; exact H2).
  destruct (take_turn_returns (_p2 e) w1 H2') as (a2 & w2 & T2 & K2).
  exists a1, a2. eexists.
  split; [apply (play_round_returns e w w1 w2 a1 a2 T1 T2) |].
  intros r. rewrite !register_keeps_class, K2, K1. reflexivity.
Qed.

(** An invariant of the notifications of a round, indexed by the number of
    rounds, holds after any number of rounds. *)
Lemma rounds_keep (Inv : nat -> IPDEngine -> Prop) :
  (forall j e a1 a2, Inv j e -> Inv (S j) (notify_round a1 a2 e)) ->
  forall (k j : nat) (e : IPDEngine) (w : World RNG),
    objects w (_p1 e) <> UniformStrategy ->
    objects w (_p2 e) <> UniformStrategy ->
    Inv j e ->
    exists (e' : IPDEngine) (w' : World RNG),
      repeat_py k play_round (e, w) = (Returns tt, (e', w'))
      /\ Inv (j + k)%nat e'
      /\ _p1 e' = _p1 e /\ _p2 e' = _p2 e.
Proof.
  intros Step. induction k as [| k IH]; intros j e w H1 H2 I.
  - exists e, w. rewrite Nat.add_0_r. repeat split; assumption.
  - destruct (play_round_notifies e w H1 H2) as (a1 & a2 & w1 & R & K).
    assert (H1' : objects w1 (_p1 (notify_round a1 a2 e)) <> UniformStrategy)
      by (cbn; rewrite K; exact H1).
    assert (H2' : objects w1 (_p2 (notify_round a1 a2 e)) <> UniformStrategy)
      by (cbn; rewrite K; exact H2).
    destruct (IH (S j) _ w1 H1' H2' (Step j e a1 a2 I)) as (e' & w' & R' & I' & P1 & P2).
    exists e', w'. rewrite repeat_py_S, R, <- Nat.add_succ_comm.
    repeat split; assumption.
Qed.

Lemma play_game_keeps (Inv : nat -> IPDEngine -> Prop) :
  (forall j e a1 a2, Inv j e -> Inv (S j) (notify_round a1 a2 e)) ->
  forall (n : Z) (player_1 player_2 : ref) (w : World RNG),
    objects w player_1 <> UniformStrategy ->
    objects w player_2 <> UniformStrategy ->
    Inv 0%nat (IPDEngine_init player_1 player_2) ->
    exists (e' : IPDEngine) (w' : World RNG),
      play_game (Some n) (IPDEngine_init player_1 player_2, w)
      = (Returns {| p1 := player_1;
                    strategy_report_p1 := _report_1 e';
                    p2 := player_2;
                    strategy_report_p2 := _report_2 e' |},
         (e', w'))
      /\ Inv (Z.to_nat n) e'.
Proof.
  intros Step n player_1 player_2 w H1 H2 I.
  destruct (rounds_keep Inv Step (Z.to_nat n) 0%nat
              (IPDEngine_init player_1 player_2) w H1 H2 I)
    as (e' & w' & R & I' & P1 & P2).
  exists e', w'. split; [| exact I'].
  unfold play_game, bind at 1. cbn [ret]. unfold bind at 1. rewrite R.
  unfold bind, get_self, ret. cbn [fst snd]. rewrite P1, P2. reflexivity.
Qed.

Lemma defections_notify (a : Action) (payoff : Z) (r : StrategyReport) :
  defections (notify a payoff r)
  = defections r + (if Action_eqb a DEFECT then 1 else 0).
Proof.
  unfold defections, stored. rewrite dict_lookup_notify.
  destruct (Action_eqb a DEFECT) eqn:E.
  - apply Action_eqb_eq in E. subst a. unfold stored. reflexivity.
  - lia.
Qed.

Lemma rounds_played_new (player_1 player_2 : ref) :
  rounds_played 0 (IPDEngine_init player_1 player_2).
Proof. cbv. repeat split; discriminate. Qed.

Lemma rounds_played_next (j : nat) (e : IPDEngine) (a1 a2 : Action) :
  rounds_played j e -> rounds_played (S j) (notify_round a1 a2 e).
Proof.
  unfold rounds_played, notify_round.
  cbn [notify_report_1 notify_report_2 _report_1 _report_2].
  rewrite !n_rounds_notify, !total_gain_notify, !defections_notify, Nat2Z.inj_succ.
  intros (N1 & N2 & D & B1 & B2 & B).
  destruct a1, a2; cbn [compute_payoff Action_eqb andb fst snd];
    repeat split; lia.
Qed.

Lemma winner_of_gains (rep : Report) :
  (total_gain (strategy_report_p1 rep) > total_gain (strategy_report_p2 rep)
   -> winner rep = Some (p1 rep))
  /\ (total_gain (strategy_report_p1 rep) < total_gain (strategy_report_p2 rep)
      -> winner rep = Some (p2 rep))
  /\ (total_gain (strategy_report_p1 rep) = total_gain (strategy_report_p2 rep)
      -> winner rep = None).
Proof.
  unfold winner.
  destruct (Z.eqb_spec (total_gain (strategy_report_p1 rep))
                       (total_gain (strategy_report_p2 rep)));
    destruct (Z.gtb_spec (total_gain (strategy_report_p1 rep))
                         (total_gain (strategy_report_p2 rep)));
    repeat split; intros; try lia; reflexivity.
Qed.

(** X4: in the report of a game, of any length, between players of any
    class but [UniformStrategy], the total gain of player 1 exceeds that of
    player 2 by five times the number of defections it has more; so the
    winner is the player who defected more often, and there is none when
    both defected equally often. *)
Theorem winner_is_who_defected_more
  (n : Z) (player_1 player_2 : ref) (w : World RNG) :
  objects w player_1 <> UniformStrategy ->
  objects w player_2 <> UniformStrategy ->
  exists (rep : Report) (s : Game),
    play_game (Some n) (IPDEngine_init player_1 player_2, w) = (Returns rep, s)
    /\ total_gain (strategy_report_p1 rep) - total_gain (strategy_report_p2 rep)
       = 5 * (defections (strategy_report_p1 rep)
              - defections (strategy_report_p2 rep))
    /\ (defections (strategy_report_p1 rep) > defections (strategy_report_p2 rep)
        -> winner rep = Some player_1)
    /\ (defections (strategy_report_p1 rep) < defections (strategy_report_p2 rep)
        -> winner rep = Some player_2)
    /\ (defections (strategy_report_p1 rep) = defections (strategy_report_p2 rep)
        -> winner rep = None).
Proof.
  intros H1 H2.
  destruct (play_game_keeps rounds_played rounds_played_next n player_1 player_2 w
              H1 H2 (rounds_played_new player_1 player_2))
    as (e' & w' & G & _ & _ & D & _).
  eexists. eexists. split; [exact G |].
  cbn [strategy_report_p1 strategy_report_p2].
  split; [exact D |].
  match goal with
  | |- context [winner ?r] => destruct (winner_of_gains r) as (W1 & W2 & W0)
  end.
  cbn [strategy_report_p1 strategy_report_p2 p1 p2] in W1, W2, W0.
  repeat split; intros; [apply W1 | apply W2 | apply W0]; lia.
Qed.

(** X5: in the report of a game of [n >= 0] rounds between players of any
    class but [UniformStrategy], each total gain lies between 0 and [5 n],
    and the two together between [2 n] and [6 n]. *)
Theorem total_gains_bounded
  (n : Z) (player_1 player_2 : ref) (w : World RNG) :
  0 <= n ->
  objects w player_1 <> UniformStrategy ->
  objects w player_2 <> UniformStrategy ->
  exists (rep : Report) (s : Game),
    play_game (Some n) (IPDEngine_init player_1 player_2, w) = (Returns rep, s)
    /\ 0 <= total_gain (strategy_report_p1 rep) <= 5 * n
    /\ 0 <= total_gain (strategy_report_p2 rep) <= 5 * n
    /\ 2 * n
       <= total_gain (strategy_report_p1 rep) + total_gain (strategy_report_p2 rep)
       <= 6 * n.
Proof.
  intros Hn H1 H2.
  destruct (play_game_keeps rounds_played rounds_played_next n player_1 player_2 w
              H1 H2 (rounds_played_new player_1 player_2))
    as (e' & w' & G & _ & _ & _ & B1 & B2 & B).
  rewrite Z2Nat.id in B1, B2, B by exact Hn.
  eexists. eexists. split; [exact G |].
  cbn [strategy_report_p1 strategy_report_p2]. repeat split; lia.
Qed.

Lemma truediv_between (g n : Z) :
  1 <= n ->
  0 <= g <= 5 * n ->
  exists q : Q,
    truediv g n = Returns q
    /\ Qle (inject_Z 0) q /\ Qle q (inject_Z 5).
Proof.
  intros Hn Hg. rewrite truediv_nonzero by lia.
  assert (P : Qlt 0 (inject_Z n)) by (apply inject_Z_pos; lia).
  destruct (float_of_Q_between (quotient g n) 5) as (q & E & L & U).
  - unfold quotient. apply Qle_shift_div_l; [exact P |].
    rewrite Qmult_0_l. change 0%Q with (inject_Z 0). rewrite <- Zle_Qle. lia.
  - unfold quotient. apply Qle_shift_div_r; [exact P |].
    rewrite <- inject_Z_mult, <- Zle_Qle. lia.
  - reflexivity.
  - rewrite E. exists q. split; [reflexivity |]. split; assumption.
Qed.

(** X6: after a game of [n >= 1] rounds between players of any class but
    [UniformStrategy], the average gain of each player is defined and lies
    between 0 and 5. *)
Theorem average_gains_between_0_and_5
  (n : Z) (player_1 player_2 : ref) (w : World RNG) :
  1 <= n ->
  objects w player_1 <> UniformStrategy ->
  objects w player_2 <> UniformStrategy ->
  exists (rep : Report) (s : Game) (q1 q2 : Q),
    play_game (Some n) (IPDEngine_init player_1 player_2, w) = (Returns rep, s)
    /\ average_gain (strategy_report_p1 rep) = Returns q1
    /\ Qle (inject_Z 0) q1 /\ Qle q1 (inject_Z 5)
    /\ average_gain (strategy_report_p2 rep) = Returns q2
    /\ Qle (inject_Z 0) q2 /\ Qle q2 (inject_Z 5).
Proof.
  intros Hn H1 H2.
  destruct (play_game_keeps rounds_played rounds_played_next n player_1 player_2 w
              H1 H2 (rounds_played_new player_1 player_2))
    as (e' & w' & G & N1 & N2 & _ & B1 & B2 & _).
  rewrite Z2Nat.id in N1, N2, B1, B2 by lia.
  destruct (truediv_between (total_gain (_report_1 e')) n Hn B1) as (q1 & A1 & L1 & U1).
  destruct (truediv_between (total_gain (_report_2 e')) n Hn B2) as (q2 & A2 & L2 & U2).
  eexists. eexists. exists q1, q2. split; [exact G |].
  unfold average_gain. cbn [strategy_report_p1 strategy_report_p2].
  rewrite N1, N2. repeat split; assumption.
Qed.

Lemma report_str_returns (rep : Report) (w : World RNG) (q1 q2 : Q) :
  average_gain (strategy_report_p1 rep) = Returns q1 ->
  average_gain (strategy_report_p2 rep) = Returns q2 ->
  exists text : string, Report_str rep w = (Returns text, w).
Proof.
  intros A1 A2. unfold Report_str, bind, winner_repr, value_of, ret.
  rewrite A1, A2. eexists. reflexivity.
Qed.


(** X8: the report of a game of [n >= 1] rounds between players of any
    class but [UniformStrategy] can be rendered: [__str__] returns a
    text. *)
Theorem report_of_a_game_renders
  (n : Z) (player_1 player_2 : ref) (w : World RNG) :
  1 <= n ->
  objects w player_1 <> UniformStrategy ->
  objects w player_2 <> UniformStrategy ->
  exists (rep : Report) (s : Game) (text : string),
    play_game (Some n) (IPDEngine_init player_1 player_2, w) = (Returns rep, s)
    /\ Report_str rep (snd s) = (Returns text, snd s).
Proof.
  intros Hn H1 H2.
  destruct (play_game_keeps rounds_played rounds_played_next n player_1 player_2 w
              H1 H2 (rounds_played_new player_1 player_2))
    as (e' & w' & G & N1 & N2 & _ & B1 & B2 & _).
  rewrite Z2Nat.id in N1, N2, B1, B2 by lia.
  destruct (truediv_between (total_gain (_report_1 e')) n Hn B1) as (q1 & A1 & _).
  destruct (truediv_between (total_gain (_report_2 e')) n Hn B2) as (q2 & A2 & _).
  eexists. eexists.
  assert (T : exists text : string,
             Report_str {| p1 := player_1; strategy_report_p1 := _report_1 e';
                           p2 := player_2; strategy_report_p2 := _report_2 e' |} w'
             = (Returns text, w')).
  { apply (report_str_returns _ w' q1 q2); unfold average_gain;
      cbn [strategy_report_p1 strategy_report_p2]; [rewrite N1 | rewrite N2];
      assumption. }
  destruct T as (text & T). exists text. split; [exact G | exact T].
Qed.

(** ** Games of particular players *)

(** An invariant of the engine and the world that a round keeps holds after
    any number of rounds, none of which raises. *)
Lemma rounds_keep_state (Inv : Game -> Prop) :
  (forall s, Inv s -> exists s', play_round s = (Returns tt, s') /\ Inv s') ->
  forall (k : nat) (s : Game),
    Inv s -> exists s', repeat_py k play_round s = (Returns tt, s') /\ Inv s'.
Proof.
  intros Step. induction k as [| k IH]; intros s I.
  - exists s. split; [reflexivity | exact I].
  - destruct (Step s I) as (s1 & R & I1).
    destruct (IH s1 I1) as (s' & R' & I').
    exists s'. rewrite repeat_py_S, R. split; assumption.
Qed.

Lemma play_game_after_rounds (n : Z) (s s' : Game) :
  repeat_py (Z.to_nat n) play_round s = (Returns tt, s') ->
  play_game (Some n) s
  = (Returns {| p1 := _p1 (fst s');
                strategy_report_p1 := _report_1 (fst s');
                p2 := _p2 (fst s');
                strategy_report_p2 := _report_2 (fst s') |},
     s').
Proof.
  intros R. unfold play_game, bind at 1. cbn [ret]. unfold bind at 1. rewrite R.
  reflexivity.
Qed.

Lemma take_turn_next_action (self : ref) (w : World RNG) (a : Action) :
  next_action (objects w self) = Some a ->
  take_turn self w = (Returns a, w).
Proof.
  unfold take_turn, next_action.
  destruct (objects w self) as [| | | first [last |] | p]; intros H;
    try discriminate H; injection H as <-; reflexivity.
Qed.

Lemma fixed_action_next (s : Strategy) (a : Action) :
  fixed_action s = Some a -> next_action s = Some a.
Proof. destruct s as [| | | first [last |] | p]; intros H; try discriminate H; exact H. Qed.

Lemma register_fixed (self : ref) (w : World RNG) (a b : Action) :
  fixed_action (objects w self) = Some a ->
  register_opponent_action self b w = (Returns tt, w).
Proof.
  unfold register_opponent_action.
  destruct (objects w self); intros H; try discriminate H; reflexivity.
Qed.

Lemma play_round_fixed (e : IPDEngine) (w : World RNG) (a1 a2 : Action) :
  fixed_action (objects w (_p1 e)) = Some a1 ->
  fixed_action (objects w (_p2 e)) = Some a2 ->
  play_round (e, w) = (Returns tt, (notify_round a1 a2 e, w)).
Proof.
  intros F1 F2.
  rewrite (play_round_returns e w w w a1 a2
             (take_turn_next_action _ _ _ (fixed_action_next _ _ F1))
             (take_turn_next_action _ _ _ (fixed_action_next _ _ F2))).
  rewrite (register_fixed _ _ _ a2 F1). cbn [snd].
  rewrite (register_fixed _ _ _ a1 F2). reflexivity.
Qed.

Lemma notify_same_action (a : Action) (payoff v : Z) (r : StrategyReport) :
  action_histogram r = [(a, v)] ->
  action_histogram (notify a payoff r) = [(a, v + 1)].
Proof.
  intros H. unfold notify, defaultdict_getitem. rewrite H.
  cbn [dict_lookup]. rewrite Action_eqb_refl.
  cbn [action_histogram dict_setitem]. rewrite Action_eqb_refl. reflexivity.
Qed.

(** X9: a game of [n >= 0] rounds between two players that always take the
    same action, [a1] and [a2] (cooperative or defecting strategies).  The
    total gains are [n] times the payoffs of [(a1, a2)], each histogram has
    the single entry of its player's action with count [n], the strategies
    and the generator are left as they were; two players of the same
    action tie, and a defecting one wins against a cooperative one. *)
Theorem game_of_fixed_strategies
  (n : Z) (player_1 player_2 : ref) (w : World RNG) (a1 a2 : Action) :
  0 <= n ->
  fixed_action (objects w player_1) = Some a1 ->
  fixed_action (objects w player_2) = Some a2 ->
  exists (rep : Report) (e' : IPDEngine),
    play_game (Some n) (IPDEngine_init player_1 player_2, w) = (Returns rep, (e', w))
    /\ total_gain (strategy_report_p1 rep) = n * fst (compute_payoff a1 a2)
    /\ total_gain (strategy_report_p2 rep) = n * snd (compute_payoff a1 a2)
    /\ (1 <= n ->
        action_histogram (strategy_report_p1 rep) = [(a1, n)]
        /\ action_histogram (strategy_report_p2 rep) = [(a2, n)])
    /\ (a1 = a2 -> winner rep = None)
    /\ (1 <= n -> a1 = DEFECT -> a2 = COOPERATE -> winner rep = Some player_1)
    /\ (1 <= n -> a1 = COOPERATE -> a2 = DEFECT -> winner rep = Some player_2).
Proof.
  intros Hn F1 F2.
  pose proof (rounds_keep_state
              (fun s =>
                 snd s = w /\ _p1 (fst s) = player_1 /\ _p2 (fst s) = player_2
                 /\ total_gain (_report_1 (fst s))
                    = n_rounds (_report_1 (fst s)) * fst (compute_payoff a1 a2)
                 /\ total_gain (_report_2 (fst s))
                    = n_rounds (_report_2 (fst s)) * snd (compute_payoff a1 a2)
                 /\ (action_histogram (_report_1 (fst s)) = []
                     \/ action_histogram (_report_1 (fst s))
                        = [(a1, n_rounds (_report_1 (fst s)))])
                 /\ (action_histogram (_report_2 (fst s)) = []
                     \/ action_histogram (_report_2 (fst s))
                        = [(a2, n_rounds (_report_2 (fst s)))]))) as Keep.
  cbv beta in Keep.
  match type of Keep with ?A -> _ => assert (Step : A) end.
  { intros [e w0] (W & P1 & P2 & G1 & G2 & A1 & A2). cbn [fst snd] in *. subst w0.
    rewrite <- P1 in F1. rewrite <- P2 in F2.
    rewrite (play_round_fixed e w a1 a2 F1 F2).
    eexists. split; [reflexivity |].
    unfold notify_round.
    cbn [fst snd notify_report_1 notify_report_2 _report_1 _report_2 _p1 _p2].
    rewrite !n_rounds_notify, !total_gain_notify.
    repeat split; try assumption; try lia; right.
    - destruct A1 as [A1 | A1].
      + unfold n_rounds. unfold notify, defaultdict_getitem. rewrite A1.
        cbn. rewrite Action_eqb_refl. reflexivity.
      + rewrite (notify_same_action _ _ _ _ A1). reflexivity.
    - destruct A2 as [A2 | A2].
      + unfold n_rounds. unfold notify, defaultdict_getitem. rewrite A2.
        cbn. rewrite Action_eqb_refl. reflexivity.
      + rewrite (notify_same_action _ _ _ _ A2). reflexivity. }
  specialize (Keep Step). clear Step.
  destruct (rounds_count (Z.to_nat n) (IPDEngine_init player_1 player_2) w)
    as (e1 & w1 & R1 & _ & _ & N1 & N2).
  { cbn [IPDEngine_init _p1]. destruct (objects w player_1); discriminate. }
  { cbn [IPDEngine_init _p2]. destruct (objects w player_2); discriminate. }
  destruct (Keep (Z.to_nat n) (IPDEngine_init player_1 player_2, w))
    as ([e' w'] & R & W & P1 & P2 & G1 & G2 & A1 & A2).
  { cbn. repeat split; auto. }
  cbn [fst snd] in *. subst w'.
  rewrite R in R1. injection R1 as <- <-.
  rewrite Z2Nat.id in N1, N2 by exact Hn.
  change (n_rounds (_report_1 (IPDEngine_init player_1 player_2))) with 0 in N1.
  change (n_rounds (_report_2 (IPDEngine_init player_1 player_2))) with 0 in N2.
  rewrite Z.add_0_l in N1, N2. rewrite N1 in G1, A1. rewrite N2 in G2, A2.
  eexists. exists e'. split; [apply (play_game_after_rounds n _ _ R) |].
  cbn [fst strategy_report_p1 strategy_report_p2]. rewrite P1, P2.
  split; [exact G1 |]. split; [exact G2 |].
  match goal with
  | |- context [winner ?r] => destruct (winner_of_gains r) as (W1 & W2 & W0)
  end.
  cbn [strategy_report_p1 strategy_report_p2 p1 p2] in W1, W2, W0.
  split; [| split; [| split]].
  - intros Hn1. split.
    + destruct A1 as [A1 | A1]; [| exact A1].
      unfold n_rounds in N1. rewrite A1 in N1. cbn in N1. lia.
    + destruct A2 as [A2 | A2]; [| exact A2].
      unfold n_rounds in N2. rewrite A2 in N2. cbn in N2. lia.
  - intros ->. apply W0. rewrite G1, G2. destruct a2; reflexivity.
  - intros Hn1 -> ->. apply W1. rewrite G1, G2. cbn. lia.
  - intros Hn1 -> ->. apply W2. rewrite G1, G2. cbn. lia.
Qed.

Lemma payoff_difference (a1 a2 : Action) :
  fst (compute_payoff a1 a2) - snd (compute_payoff a1 a2)
  = 5 * (defects a1 - defects a2).
Proof. destruct a1, a2; reflexivity. Qed.

(** X10: a new replay strategy as player 1 against a distinct player of
    any class but [UniformStrategy], for a game of any length.  The total
    gain of the replay strategy exceeds that of its opponent by
    [5 * (defects first - defects a)], where [a] is the action it would
    take next (the opponent's last one, once a round is played): the two
    totals differ by at most 5, and a replay strategy that starts with a
    cooperation never wins. *)
Theorem replay_strategy_stays_within_5
  (n : Z) (first : Action) (player_1 player_2 : ref) (w : World RNG) :
  player_1 <> player_2 ->
  objects w player_1 = ReplayStrategy_init first ->
  objects w player_2 <> UniformStrategy ->
  exists (rep : Report) (s : Game) (a : Action),
    play_game (Some n) (IPDEngine_init player_1 player_2, w) = (Returns rep, s)
    /\ next_action (objects (snd s) player_1) = Some a
    /\ total_gain (strategy_report_p1 rep) - total_gain (strategy_report_p2 rep)
       = 5 * (defects first - defects a)
    /\ -5 <= total_gain (strategy_report_p1 rep) - total_gain (strategy_report_p2 rep)
       <= 5
    /\ (first = COOPERATE ->
        total_gain (strategy_report_p1 rep) <= total_gain (strategy_report_p2 rep)
        /\ winner rep <> Some player_1).
Proof.
  intros D O1 O2.
  pose proof (rounds_keep_state
                (fun s =>
                   _p1 (fst s) = player_1 /\ _p2 (fst s) = player_2
                   /\ objects (snd s) player_2 <> UniformStrategy
                   /\ exists last : option Action,
                        objects (snd s) player_1 = ReplayStrategy first last
                        /\ total_gain (_report_1 (fst s))
                           - total_gain (_report_2 (fst s))
                           = 5 * (defects first
                                  - defects match last with
                                            | None => first
                                            | Some a => a
                                            end))) as Keep.
  cbv beta in Keep.
  match type of Keep with ?A -> _ => assert (Step : A) end.
  { intros [e w0] (P1 & P2 & U2 & last & R1 & G). cbn [fst snd] in *.
    rewrite <- P1 in R1. rewrite <- P2 in U2.
    pose proof (take_turn_replay _ _ _ _ R1) as T1.
    destruct (take_turn_returns (_p2 e) w0 U2) as (a2 & w2 & T2 & K2).
    rewrite (play_round_returns e w0 w0 w2 _ a2 T1 T2).
    assert (R1' : objects w2 (_p1 e) = ReplayStrategy first last)
      by (rewrite K2; exact R1).
    rewrite (register_replay _ _ _ a2 w2 R1'). cbn [snd].
    eexists. split; [reflexivity |].
    unfold notify_report_1, notify_report_2.
    cbn [fst snd _p1 _p2 _report_1 _report_2].
    split; [exact P1 |]. split; [exact P2 |]. split.
    - rewrite register_keeps_class. rewrite <- P2.
      rewrite objects_set_object_other by congruence.
      rewrite K2. exact U2.
    - exists (Some a2). split.
      + assert (Q : objects (set_object (_p1 e) (ReplayStrategy first (Some a2)) w2)
                            player_1 = ReplayStrategy first (Some a2))
          by (rewrite <- P1; apply objects_set_object_same).
        revert Q. generalize (set_object (_p1 e) (ReplayStrategy first (Some a2)) w2).
        intros w3 Q. unfold register_opponent_action.
        destruct (objects w3 (_p2 e)); cbn [snd]; try exact Q.
        rewrite objects_set_object_other by congruence. exact Q.
      + rewrite !total_gain_notify.
        pose proof (payoff_difference match last with None => first | Some a => a end a2).
        lia. }
  specialize (Keep Step). clear Step.
  destruct (Keep (Z.to_nat n) (IPDEngine_init player_1 player_2, w))
    as ([e' w'] & R & P1 & P2 & U2 & last & R1 & G).
  { cbn [fst snd IPDEngine_init _p1 _p2 _report_1 _report_2].
    repeat split; auto. exists None. split; [exact O1 |].
    cbn [total_gain StrategyReport_init]. lia. }
  cbn [fst snd] in *.
  eexists. exists (e', w'), match last with None => first | Some a => a end.
  split; [apply (play_game_after_rounds n _ _ R) |].
  cbn [fst snd strategy_report_p1 strategy_report_p2]. rewrite P1, P2.
  split; [rewrite R1; destruct last; reflexivity |].
  split; [exact G |].
  match goal with
  | |- context [winner ?r] => destruct (winner_of_gains r) as (W1 & W2 & W0)
  end.
  cbn [strategy_report_p1 strategy_report_p2 p1 p2] in W1, W2, W0.
  split.
  - rewrite G. unfold defects.
    destruct (Action_eqb first DEFECT);
      destruct (Action_eqb match last with None => first | Some a => a end DEFECT);
      lia.
  - intros ->.
    assert (L : total_gain (_report_1 e') <= total_gain (_report_2 e')).
    { assert (G' := G). unfold defects in G'. cbn [Action_eqb] in G'.
      destruct (Action_eqb match last with None => COOPERATE | Some a => a end DEFECT);
        lia. }
    split; [exact L |].
    destruct (Z.eq_dec (total_gain (_report_1 e')) (total_gain (_report_2 e'))) as [E | N].
    + rewrite (W0 E). discriminate.
    + rewrite W2 by lia. intros H. injection H as H. congruence.
Qed.

Lemma register_keeps_next_action (self r : ref) (a : Action) (w : World RNG) :
  next_action (objects w r) <> None ->
  next_action (objects (snd (register_opponent_action self a w)) r) <> None.
Proof.
  intros H. unfold register_opponent_action.
  destruct (objects w self) as [| | | first last | p]; cbn [snd]; try exact H.
  destruct (Nat.eq_dec r self) as [-> | N].
  - rewrite objects_set_object_same. discriminate.
  - rewrite objects_set_object_other by exact N. exact H.
Qed.

(** X11: one object given to the engine as both players, of a class whose
    turn depends on the object alone (cooperative, defecting or replay).
    In every round it takes the same action in both seats, so after a game
    of any length the two strategy reports are equal and there is no
    winner. *)
Theorem same_object_in_both_seats_ties
  (n : Z) (player : ref) (w : World RNG) :
  next_action (objects w player) <> None ->
  exists (rep : Report) (s : Game),
    play_game (Some n) (IPDEngine_init player player, w) = (Returns rep, s)
    /\ strategy_report_p1 rep = strategy_report_p2 rep
    /\ winner rep = None.
Proof.
  intros H.
  pose proof (rounds_keep_state
                (fun s =>
                   _p1 (fst s) = player /\ _p2 (fst s) = player
                   /\ _report_1 (fst s) = _report_2 (fst s)
                   /\ next_action (objects (snd s) player) <> None)) as Keep.
  cbv beta in Keep.
  match type of Keep with ?A -> _ => assert (Step : A) end.
  { intros [e w0] (P1 & P2 & E & N). cbn [fst snd] in *.
    destruct (next_action (objects w0 player)) as [a |] eqn:A; [| contradiction].
    assert (T : take_turn player w0 = (Returns a, w0))
      by (apply take_turn_next_action; exact A).
    assert (T1 := T). assert (T2 := T).
    rewrite <- P1 in T1. rewrite <- P2 in T2.
    rewrite (play_round_returns e w0 w0 w0 a a T1 T2).
    eexists. split; [reflexivity |].
    unfold notify_report_1, notify_report_2.
    cbn [fst snd _p1 _p2 _report_1 _report_2].
    split; [exact P1 |]. split; [exact P2 |]. split.
    - rewrite E. destruct a; reflexivity.
    - do 2 apply register_keeps_next_action. rewrite A. discriminate. }
  specialize (Keep Step). clear Step.
  destruct (Keep (Z.to_nat n) (IPDEngine_init player player, w))
    as ([e' w'] & R & P1 & P2 & E & N).
  { cbn. repeat split; auto. }
  cbn [fst snd] in *.
  eexists. exists (e', w'). split; [apply (play_game_after_rounds n _ _ R) |].
  cbn [fst strategy_report_p1 strategy_report_p2]. split; [exact E |].
  unfold winner. cbn [strategy_report_p1 strategy_report_p2]. rewrite E.
  rewrite Z.eqb_refl. reflexivity.
Qed.

(** ** The round count drawn by the engine *)

Lemma play_game_without_count (s : Game) :
  play_game None s
  = play_game (Some (fst (randint 1 MAX_N_TURN (rng (snd s)))))
      (fst s, {| objects := objects (snd s);
                 rng := snd (randint 1 MAX_N_TURN (rng (snd s))) |}).
Proof.
  unfold play_game, bind at 1, on_world, draw.
  destruct (randint 1 MAX_N_TURN (rng (snd s))) as [x g].
  unfold bind at 3. reflexivity.
Qed.

(** X12: [play_game()] without a number of rounds, between players of any
    class but [UniformStrategy], when [randint(1, 10000)] gives a number
    in that range.  The number is drawn once, before the first round; the
    game has that many rounds, between 1 and 10000, for both players, and
    its report can be rendered. *)
Theorem play_game_draws_its_rounds
  (player_1 player_2 : ref) (w : World RNG) :
  objects w player_1 <> UniformStrategy ->
  objects w player_2 <> UniformStrategy ->
  1 <= fst (randint 1 MAX_N_TURN (rng w)) <= MAX_N_TURN ->
  exists (rep : Report) (s : Game) (text : string),
    play_game None (IPDEngine_init player_1 player_2, w) = (Returns rep, s)
    /\ n_rounds (strategy_report_p1 rep) = fst (randint 1 MAX_N_TURN (rng w))
    /\ n_rounds (strategy_report_p2 rep) = fst (randint 1 MAX_N_TURN (rng w))
    /\ 1 <= n_rounds (strategy_report_p1 rep) <= 10000
    /\ Report_str rep (snd s) = (Returns text, snd s).
Proof.
  intros H1 H2 Hn.
  rewrite play_game_without_count. cbn [fst snd].
  destruct (play_game_keeps rounds_played rounds_played_next
              (fst (randint 1 MAX_N_TURN (rng w))) player_1 player_2
              {| objects := objects w; rng := snd (randint 1 MAX_N_TURN (rng w)) |}
              H1 H2 (rounds_played_new player_1 player_2))
    as (e' & w' & G & N1 & N2 & _ & B1 & B2 & _).
  rewrite Z2Nat.id in N1, N2, B1, B2 by lia.
  destruct (truediv_between (total_gain (_report_1 e')) _ (proj1 Hn) B1)
    as (q1 & A1 & _).
  destruct (truediv_between (total_gain (_report_2 e')) _ (proj1 Hn) B2)
    as (q2 & A2 & _).
  assert (T : exists text : string,
             Report_str {| p1 := player_1; strategy_report_p1 := _report_1 e';
                           p2 := player_2; strategy_report_p2 := _report_2 e' |} w'
             = (Returns text, w')).
  { apply (report_str_returns _ w' q1 q2); unfold average_gain;
      cbn [strategy_report_p1 strategy_report_p2]; [rewrite N1 | rewrite N2];
      assumption. }
  destruct T as (text & T).
  eexists. eexists. exists text. split; [exact G |].
  cbn [strategy_report_p1 strategy_report_p2 snd].
  split; [exact N1 |]. split; [exact N2 |]. split; [| exact T].
  rewrite N1. exact Hn.
Qed.

(** ** The probabilistic strategy *)

(** X13: [take_turn] of a [RandomStrategy(p)] makes exactly one draw and
    changes no object; it cooperates when the number drawn is below [p]
    and defects otherwise.  No value of [p] is refused: with draws in
    [0, 1), a [p] of 0 or less always defects and a [p] of 1 or more
    always cooperates. *)
Theorem random_strategy_turn (self : ref) (p : Q) (w : World RNG) :
  objects w self = RandomStrategy p ->
  snd (take_turn self w)
  = {| objects := objects w; rng := snd (random (rng w)) |}
  /\ (Qlt (fst (random (rng w))) p -> fst (take_turn self w) = Returns COOPERATE)
  /\ (Qle p (fst (random (rng w))) -> fst (take_turn self w) = Returns DEFECT)
  /\ (Qle (inject_Z 0) (fst (random (rng w))) ->
      Qle p (inject_Z 0) ->
      fst (take_turn self w) = Returns DEFECT)
  /\ (Qlt (fst (random (rng w))) (inject_Z 1) ->
      Qle (inject_Z 1) p ->
      fst (take_turn self w) = Returns COOPERATE).
Proof.
  intros H. unfold take_turn. rewrite H. unfold bind, draw.
  destruct (random (rng w)) as [x g]. cbn [fst snd].
  destruct (Qlt_le_dec x p) as [L | L]; cbn [ret fst snd].
  - split; [reflexivity |]. repeat split; intros; try reflexivity.
    + exfalso. apply (Qlt_irrefl x). apply (Qlt_le_trans _ p); assumption.
    + exfalso. apply (Qlt_irrefl x).
      apply (Qlt_le_trans _ p); [assumption |].
      apply (Qle_trans _ (inject_Z 0)); assumption.
  - split; [reflexivity |]. repeat split; intros; try reflexivity.
    + exfalso. apply (Qlt_irrefl x). apply (Qlt_le_trans _ p); assumption.
    + exfalso. apply (Qlt_irrefl x).
      apply (Qlt_le_trans _ (inject_Z 1)); [assumption |].
      apply (Qle_trans _ p); assumption.
Qed.

(** ** Reports and seats *)

(** X14: the winner of a report does not depend on the seats: with the two
    players and their strategy reports exchanged, the winner is the same
    object, or there is none in both. *)
Theorem winner_is_independent_of_seats (a b : ref) (ra rb : StrategyReport) :
  winner {| p1 := b; strategy_report_p1 := rb; p2 := a; strategy_report_p2 := ra |}
  = winner {| p1 := a; strategy_report_p1 := ra; p2 := b; strategy_report_p2 := rb |}.
Proof.
  unfold winner. cbn [p1 p2 strategy_report_p1 strategy_report_p2].
  destruct (Z.eqb_spec (total_gain rb) (total_gain ra));
    destruct (Z.eqb_spec (total_gain ra) (total_gain rb)); try congruence.
  destruct (Z.gtb_spec (total_gain rb) (total_gain ra));
    destruct (Z.gtb_spec (total_gain ra) (total_gain rb)); try reflexivity; lia.
Qed.

(** ** What a round changes *)

Lemma take_turn_keeps_objects (self : ref) (w : World RNG) :
  objects (snd (take_turn self w)) = objects w.
Proof.
  unfold take_turn.
  destruct (objects w self) as [| | | first [last |] | p]; try reflexivity.
  - unfold choice_Action, bind, draw.
    destruct (randbelow Action_class_len (rng w)) as [i g]. reflexivity.
  - unfold bind, draw. destruct (random (rng w)) as [x g].
    destruct (Qlt_le_dec x p); reflexivity.
Qed.

Lemma register_object (self r : ref) (a : Action) (w : World RNG) :
  objects (snd (register_opponent_action self a w)) r
  = if Nat.eqb r self then after_register (objects w r) a else objects w r.
Proof.
  unfold register_opponent_action.
  destruct (Nat.eqb_spec r self) as [-> | N].
  - destruct (objects w self) eqn:O; cbn [snd]; rewrite ?O; try reflexivity.
    apply objects_set_object_same.
  - destruct (objects w self); cbn [snd]; try reflexivity.
    apply objects_set_object_other. exact N.
Qed.

Lemma after_register_cases (s : Strategy) (a : Action) :
  after_register s a = s
  \/ exists (first : Action) (last : option Action),
       s = ReplayStrategy first last
       /\ after_register s a = ReplayStrategy first (Some a).
Proof.
  destruct s as [| | | first last | p]; try (left; reflexivity).
  right. exists first, last. split; reflexivity.
Qed.

Lemma register_keeps_rng (self : ref) (a : Action) (w : World RNG) :
  rng (snd (register_opponent_action self a w)) = rng w.
Proof.
  unfold register_opponent_action. destruct (objects w self); reflexivity.
Qed.

Lemma after_register_twice (s : Strategy) (a b : Action) :
  after_register (after_register s a) b = after_register s b.
Proof. destruct s; reflexivity. Qed.

(** X15: a round is all or nothing.  When player 1 is a [UniformStrategy]
    the round raises the [KeyError] of its draw; when player 2 is one and
    player 1 is not, player 1 takes its turn and the round then raises the
    [KeyError] of player 2's draw; in both cases the engine and every
    strategy object are as before, and only the generator has moved.
    Otherwise the round returns: with [act_p1] and [act_p2] the actions
    that the two [take_turn] calls return, in that order, report 1 is
    notified of [act_p1] and report 2 of [act_p2], each with its payoff of
    [(act_p1, act_p2)]; player 1 is told [act_p2] and then player 2
    [act_p1], which changes replay strategies only; no other object
    changes, and the generator is as the two turns left it. *)
Theorem play_round_all_or_nothing (e : IPDEngine) (w : World RNG) :
  (objects w (_p1 e) = UniformStrategy ->
   play_round (e, w)
   = (Raises (KeyError (SInt (fst (randbelow Action_class_len (rng w))))),
      (e, {| objects := objects w;
             rng := snd (randbelow Action_class_len (rng w)) |})))
  /\ (objects w (_p1 e) <> UniformStrategy ->
      objects w (_p2 e) = UniformStrategy ->
      exists (act_p1 : Action) (w1 : World RNG),
        take_turn (_p1 e) w = (Returns act_p1, w1)
        /\ play_round (e, w)
           = (Raises (KeyError (SInt (fst (randbelow Action_class_len (rng w1))))),
              (e, {| objects := objects w;
                     rng := snd (randbelow Action_class_len (rng w1)) |})))
  /\ (objects w (_p1 e) <> UniformStrategy ->
      objects w (_p2 e) <> UniformStrategy ->
      exists (act_p1 act_p2 : Action) (w1 w2 w' : World RNG) (e' : IPDEngine),
        take_turn (_p1 e) w = (Returns act_p1, w1)
        /\ take_turn (_p2 e) w1 = (Returns act_p2, w2)
        /\ play_round (e, w) = (Returns tt, (e', w'))
        /\ _p1 e' = _p1 e
        /\ _p2 e' = _p2 e
        /\ _report_1 e'
           = notify act_p1 (fst (compute_payoff act_p1 act_p2)) (_report_1 e)
        /\ _report_2 e'
           = notify act_p2 (snd (compute_payoff act_p1 act_p2)) (_report_2 e)
        /\ rng w' = rng w2
        /\ forall r : ref,
             objects w' r
             = if Nat.eqb r (_p2 e) then after_register (objects w r) act_p1
               else if Nat.eqb r (_p1 e) then after_register (objects w r) act_p2
               else objects w r).
Proof.
  split; [| split].
  - intros U1. apply play_round_raises_p1, take_turn_uniform, U1.
  - intros N1 U2.
    destruct (take_turn_returns (_p1 e) w N1) as (a1 & w1 & T1 & K1).
    exists a1, w1. split; [exact T1 |].
    rewrite <- K1 in U2.
    unfold play_round, bind, get_self, on_world. cbn [fst snd].
    rewrite T1. cbn [fst snd]. rewrite (take_turn_uniform _ _ U2), K1.
    reflexivity.
  - intros N1 N2.
    destruct (take_turn_returns (_p1 e) w N1) as (a1 & w1 & T1 & K1).
    assert (N2' : objects w1 (_p2 e) <> UniformStrategy) by (rewrite K1; exact N2).
    destruct (take_turn_returns (_p2 e) w1 N2') as (a2 & w2 & T2 & K2).
    exists a1, a2, w1, w2. eexists. eexists.
    split; [exact T1 |]. split; [exact T2 |].
    split; [apply (play_round_returns e w w1 w2 a1 a2 T1 T2) |].
    cbn [notify_report_1 notify_report_2 _p1 _p2 _report_1 _report_2].
    split; [reflexivity |]. split; [reflexivity |].
    split; [reflexivity |]. split; [reflexivity |].
    split; [rewrite !register_keeps_rng; reflexivity |].
    intros r. rewrite !register_object, K2, K1.
    destruct (Nat.eqb r (_p2 e)); [| reflexivity].
    destruct (Nat.eqb r (_p1 e)); [| reflexivity].
    apply after_register_twice.
Qed.

(** ** Exchanging the seats *)

Lemma next_action_after_register (s : Strategy) (a : Action) :
  next_action s <> None -> next_action (after_register s a) <> None.
Proof. destruct s as [| | | first [last |] | p]; cbn; auto; discriminate. Qed.

Lemma payoff_exchanged (a b : Action) :
  fst (compute_payoff b a) = snd (compute_payoff a b)
  /\ snd (compute_payoff b a) = fst (compute_payoff a b).
Proof. destruct a, b; split; reflexivity. Qed.

Lemma play_round_seats_exchanged (a b : ref) (s s' : Game) :
  a <> b ->
  seats_exchanged a b s s' ->
  exists t t' : Game,
    play_round s = (Returns tt, t)
    /\ play_round s' = (Returns tt, t')
    /\ seats_exchanged a b t t'.
Proof.
  intros D. destruct s as [e w], s' as [e' w'].
  unfold seats_exchanged. cbn [fst snd].
  intros (P1 & P2 & P1' & P2' & R1 & R2 & Oa & Ob & Na & Nb).
  destruct (next_action (objects w a)) as [x |] eqn:Xa; [| contradiction].
  destruct (next_action (objects w b)) as [y |] eqn:Yb; [| contradiction].
  assert (T1 : take_turn (_p1 e) w = (Returns x, w))
    by (rewrite P1; apply take_turn_next_action; exact Xa).
  assert (T2 : take_turn (_p2 e) w = (Returns y, w))
    by (rewrite P2; apply take_turn_next_action; exact Yb).
  assert (T1' : take_turn (_p1 e') w' = (Returns y, w'))
    by (rewrite P1'; apply take_turn_next_action; rewrite Ob; exact Yb).
  assert (T2' : take_turn (_p2 e') w' = (Returns x, w'))
    by (rewrite P2'; apply take_turn_next_action; rewrite Oa; exact Xa).
  rewrite (play_round_returns e w w w x y T1 T2).
  rewrite (play_round_returns e' w' w' w' y x T1' T2').
  eexists. eexists. split; [reflexivity |]. split; [reflexivity |].
  unfold notify_round, notify_report_1, notify_report_2.
  cbn [fst snd _p1 _p2 _report_1 _report_2].
  destruct (payoff_exchanged x y) as (S1 & S2).
  rewrite !register_object, P1, P2, P1', P2', R1, R2, S1, S2, Oa, Ob.
  rewrite !Nat.eqb_refl.
  rewrite (proj2 (Nat.eqb_neq a b) D).
  rewrite (proj2 (Nat.eqb_neq b a) (not_eq_sym D)).
  repeat split; try reflexivity.
  - apply next_action_after_register. rewrite Xa. discriminate.
  - apply next_action_after_register. rewrite Yb. discriminate.
Qed.

Lemma rounds_seats_exchanged (a b : ref) (k : nat) :
  a <> b ->
  forall s s' : Game,
    seats_exchanged a b s s' ->
    exists t t' : Game,
      repeat_py k play_round s = (Returns tt, t)
      /\ repeat_py k play_round s' = (Returns tt, t')
      /\ seats_exchanged a b t t'.
Proof.
  intros D. induction k as [| k IH]; intros s s' X.
  - exists s, s'. split; [reflexivity |]. split; [reflexivity | exact X].
  - destruct (play_round_seats_exchanged a b s s' D X) as (s1 & s1' & R & R' & X1).
    destruct (IH s1 s1' X1) as (t & t' & Q & Q' & Xt).
    exists t, t'. rewrite !repeat_py_S, R, R'.
    split; [exact Q |]. split; [exact Q' | exact Xt].
Qed.

(** X16: a game between two distinct objects of classes whose turn depends
    on the object alone (cooperative, defecting or replay) does not depend
    on the seats.  Played with the two players exchanged, from the same
    world and for the same number of rounds, it gives the same two
    strategy reports, exchanged, and the same winner. *)
Theorem exchanging_seats_exchanges_reports
  (n : Z) (a b : ref) (w : World RNG) :
  a <> b ->
  next_action (objects w a) <> None ->
  next_action (objects w b) <> None ->
  exists (rep rep' : Report) (s s' : Game),
    play_game (Some n) (IPDEngine_init a b, w) = (Returns rep, s)
    /\ play_game (Some n) (IPDEngine_init b a, w) = (Returns rep', s')
    /\ strategy_report_p1 rep' = strategy_report_p2 rep
    /\ strategy_report_p2 rep' = strategy_report_p1 rep
    /\ winner rep' = winner rep.
Proof.
  intros D Na Nb.
  destruct (rounds_seats_exchanged a b (Z.to_nat n) D
              (IPDEngine_init a b, w) (IPDEngine_init b a, w))
    as ([e1 w1] & [e2 w2] & R & R' & X).
  { unfold seats_exchanged. cbn. repeat split; assumption. }
  destruct X as (P1 & P2 & P1' & P2' & R1 & R2 & _). cbn [fst snd] in *.
  eexists. eexists. exists (e1, w1), (e2, w2).
  split; [apply (play_game_after_rounds n _ _ R) |].
  split; [apply (play_game_after_rounds n _ _ R') |].
  cbn [fst strategy_report_p1 strategy_report_p2].
  split; [exact R1 |]. split; [exact R2 |].
  unfold winner. cbn [p1 p2 strategy_report_p1 strategy_report_p2].
  rewrite R1, R2, P1, P2, P1', P2'.
  destruct (Z.eqb_spec (total_gain (_report_2 e1)) (total_gain (_report_1 e1)));
    destruct (Z.eqb_spec (total_gain (_report_1 e1)) (total_gain (_report_2 e1)));
    try congruence.
  destruct (Z.gtb_spec (total_gain (_report_2 e1)) (total_gain (_report_1 e1)));
    destruct (Z.gtb_spec (total_gain (_report_1 e1)) (total_gain (_report_2 e1)));
    try reflexivity; lia.
Qed.

(** ** Strategies that ignore what they are told, games that go on *)

(** X17: a cooperative or a defecting strategy ignores every call.  After
    any calls of [take_turn] and [register_opponent_action] the world is
    as it was, and [take_turn] returns the action of the class. *)
Theorem fixed_strategies_ignore_calls
  (self : ref) (a : Action) (calls : list call) (w : World RNG) :
  fixed_action (objects w self) = Some a ->
  do_calls self calls w = (Returns tt, w)
  /\ take_turn self w = (Returns a, w)
  /\ (a = COOPERATE <-> objects w self = CooperativeStrategy)
  /\ (a = DEFECT <-> objects w self = DefectStrategy).
Proof.
  intros F.
  pose proof (take_turn_next_action _ _ _ (fixed_action_next _ _ F)) as T.
  split; [| split; [exact T |]].
  - induction calls as [| c calls IH]; [reflexivity |].
    cbn [do_calls]. unfold bind at 1.
    destruct c as [| b]; cbn [do_call].
    + unfold bind at 1. rewrite T. cbn [ret]. exact IH.
    + rewrite (register_fixed _ _ _ b F). exact IH.
  - destruct (objects w self); try discriminate F; injection F as <-;
      split; split; intros; congruence.
Qed.

Lemma repeat_py_add {St : Type} (body : Py St unit) (j k : nat) (s : St) :
  repeat_py (j + k) body s
  = match repeat_py j body s with
    | (Returns _, s') => repeat_py k body s'
    | (Raises x, s') => (Raises x, s')
    end.
Proof.
  revert s. induction j as [| j IH]; intros s; [reflexivity |].
  cbn [Nat.add]. rewrite !repeat_py_S.
  destruct (body s) as [[u | x] s']; [apply IH | reflexivity].
Qed.

Lemma play_game_of_rounds (n : Z) (s : Game) :
  play_game (Some n) s
  = match repeat_py (Z.to_nat n) play_round s with
    | (Returns _, s') =>
        (Returns {| p1 := _p1 (fst s');
                    strategy_report_p1 := _report_1 (fst s');
                    p2 := _p2 (fst s');
                    strategy_report_p2 := _report_2 (fst s') |},
         s')
    | (Raises x, s') => (Raises x, s')
    end.
Proof.
  unfold play_game, bind at 1. cbn [ret]. unfold bind at 1.
  destruct (repeat_py (Z.to_nat n) play_round s) as [[u | x] s']; reflexivity.
Qed.

(** X18: an engine is not reset by a game.  A second [play_game(m)] on
    the engine of a [play_game(n)] that returned goes on from its reports
    and strategies: its outcome is that of a single [play_game(n + m)]. *)
Theorem play_game_continues
  (n m : Z) (s s1 : Game) (rep : Report) :
  0 <= n ->
  0 <= m ->
  play_game (Some n) s = (Returns rep, s1) ->
  play_game (Some m) s1 = play_game (Some (n + m)) s.
Proof.
  intros Hn Hm G.
  rewrite play_game_of_rounds in G.
  rewrite (play_game_of_rounds (n + m)), Z2Nat.inj_add, repeat_py_add by assumption.
  destruct (repeat_py (Z.to_nat n) play_round s) as [[u | x] s'];
    [| discriminate G].
  injection G as _ <-. apply play_game_of_rounds.
Qed.

End Engine.

(** * The properties at concrete inputs *)

Lemma winner_by_total_gain_holds :
  winner {| p1 := 0; strategy_report_p1 := {| total_gain := 302; action_histogram := [] |};
            p2 := 1; strategy_report_p2 := {| total_gain := 297; action_histogram := [] |} |}
  = Some 0%nat.
Proof.
  apply (winner_by_total_gain
           {| p1 := 0;
              strategy_report_p1 := {| total_gain := 302; action_histogram := [] |};
              p2 := 1;
              strategy_report_p2 := {| total_gain := 297; action_histogram := [] |} |}).
  reflexivity.
Defined.



(** C8, as the claim has it, fails: after one notification of a
    cooperation the histogram has no entry for a defection. *)
Lemma histogram_lacks_the_unplayed_action :
  ~ (forall a : Action,
       exists n : Z,
         dict_lookup (action_histogram (notify COOPERATE 3 StrategyReport_init)) a
         = Some n).
Proof. intros H. destruct (H DEFECT) as (n & E). discriminate E. Qed.

Lemma replay_returns_first_then_last_registered_holds :
  objects Lcg.demo_world 0 = ReplayStrategy_init DEFECT
  /\ take_turn Lcg.RNG Lcg.randbelow Lcg.random 0 Lcg.demo_world
     = (Returns DEFECT, Lcg.demo_world)
  /\ fst (take_turn Lcg.RNG Lcg.randbelow Lcg.random 0
            (snd (do_calls Lcg.RNG Lcg.randbelow Lcg.random 0
                    [call_take_turn;
                     call_register_opponent_action COOPERATE;
                     call_take_turn;
                     call_register_opponent_action DEFECT;
                     call_register_opponent_action COOPERATE]
                    Lcg.demo_world)))
     = Returns COOPERATE.
Proof.
  split; [reflexivity |]. split.
  - exact (proj1 (proj2 (replay_returns_first_then_last_registered
                           Lcg.RNG Lcg.randbelow Lcg.random DEFECT 0 []
                           Lcg.demo_world eq_refl))).
  - rewrite (proj1 (proj2 (replay_returns_first_then_last_registered
                             Lcg.RNG Lcg.randbelow Lcg.random DEFECT 0
                             [call_take_turn;
                              call_register_opponent_action COOPERATE;
                              call_take_turn;
                              call_register_opponent_action DEFECT;
                              call_register_opponent_action COOPERATE]
                             Lcg.demo_world eq_refl))).
    reflexivity.
Defined.

Lemma replay_defect_versus_cooperative_100_holds :
  (0 <> 1)%nat
  /\ objects Lcg.demo_world 0 = ReplayStrategy_init DEFECT
  /\ objects Lcg.demo_world 1 = CooperativeStrategy
  /\ exists (rep : Report) (s : Game Lcg.RNG),
       play_game Lcg.RNG Lcg.randbelow Lcg.random Lcg.randint (Some 100)
         (IPDEngine_init 0 1, Lcg.demo_world) = (Returns rep, s)
       /\ total_gain (strategy_report_p1 rep) = 302
       /\ total_gain (strategy_report_p2 rep) = 297
       /\ winner rep = Some 0%nat.
Proof.
  split; [discriminate |]. split; [reflexivity |]. split; [reflexivity |].
  apply (replay_defect_versus_cooperative_100
           Lcg.RNG Lcg.randbelow Lcg.random Lcg.randint 0 1 Lcg.demo_world);
    [discriminate | reflexivity | reflexivity].
Defined.

Lemma play_game_round_count_holds :
  0 <= 7
  /\ objects Lcg.demo_world 3 <> UniformStrategy
  /\ objects Lcg.demo_world 0 <> UniformStrategy
  /\ exists (rep : Report) (s : Game Lcg.RNG),
       play_game Lcg.RNG Lcg.randbelow Lcg.random Lcg.randint (Some 7)
         (IPDEngine_init 3 0, Lcg.demo_world) = (Returns rep, s)
       /\ n_rounds (strategy_report_p1 rep) = 7
       /\ n_rounds (strategy_report_p2 rep) = 7.
Proof.
  split; [lia |]. split; [discriminate |]. split; [discriminate |].
  destruct (play_game_round_count
              Lcg.RNG Lcg.randbelow Lcg.random Lcg.randint 7 3 0 Lcg.demo_world)
    as (rep & s & E & N1 & N2 & _); [lia | discriminate | discriminate |].
  exists rep, s. repeat split; assumption.
Defined.

Lemma play_game_with_uniform_player_raises_holds :
  1 <= 1
  /\ objects Lcg.demo_world 2 = UniformStrategy
  /\ exists (i : Z) (s : Game Lcg.RNG),
       play_game Lcg.RNG Lcg.randbelow Lcg.random Lcg.randint (Some 1)
         (IPDEngine_init 2 1, Lcg.demo_world) = (Raises (KeyError (SInt i)), s)
       /\ n_rounds (_report_1 (fst s)) = 0
       /\ n_rounds (_report_2 (fst s)) = 0.
Proof.
  split; [lia |]. split; [reflexivity |].
  apply (play_game_with_uniform_player_raises
           Lcg.RNG Lcg.randbelow Lcg.random Lcg.randint 1 2 1 Lcg.demo_world);
    [lia | left; reflexivity].
Defined.

(** C7, as the claim has it, fails: [play_game(-1)] returns a report, of no
    round, and raises nothing. *)
Lemma play_game_minus_one_returns :
  fst (play_game Lcg.RNG Lcg.randbelow Lcg.random Lcg.randint (Some (-1))
         (IPDEngine_init 0 1, Lcg.demo_world))
  = Returns {| p1 := 0; strategy_report_p1 := StrategyReport_init;
               p2 := 1; strategy_report_p2 := StrategyReport_init |}
  /\ ~ (exists x : exception,
          fst (play_game Lcg.RNG Lcg.randbelow Lcg.random Lcg.randint (Some (-1))
                 (IPDEngine_init 0 1, Lcg.demo_world))
          = Raises x).
Proof.
  split; [reflexivity |]. intros (x & E). discriminate E.
Qed.

Lemma play_game_negative_plays_no_round_holds :
  -5 < 0
  /\ play_game Lcg.RNG Lcg.randbelow Lcg.random Lcg.randint (Some (-5))
       (IPDEngine_init 0 1, Lcg.demo_world)
     = (Returns {| p1 := 0; strategy_report_p1 := StrategyReport_init;
                   p2 := 1; strategy_report_p2 := StrategyReport_init |},
        (IPDEngine_init 0 1, Lcg.demo_world)).
Proof.
  split; [lia |].
  apply (play_game_negative_plays_no_round
           Lcg.RNG Lcg.randbelow Lcg.random Lcg.randint (-5)
           (IPDEngine_init 0 1) Lcg.demo_world).
  lia.
Defined.

Lemma report_str_without_rounds_raises_holds :
  fst (play_game Lcg.RNG Lcg.randbelow Lcg.random Lcg.randint (Some 0)
         (IPDEngine_init 0 1, Lcg.demo_world))
  = Returns {| p1 := 0; strategy_report_p1 := StrategyReport_init;
               p2 := 1; strategy_report_p2 := StrategyReport_init |}
  /\ n_rounds StrategyReport_init = 0
  /\ Report_str Lcg.RNG Lcg.float_repr
       {| p1 := 0; strategy_report_p1 := StrategyReport_init;
          p2 := 1; strategy_report_p2 := StrategyReport_init |}
       Lcg.demo_world
     = (Raises ZeroDivisionError, Lcg.demo_world).
Proof.
  split; [reflexivity |]. split; [reflexivity |].
  apply (report_str_without_rounds_raises Lcg.RNG Lcg.float_repr
           {| p1 := 0; strategy_report_p1 := StrategyReport_init;
              p2 := 1; strategy_report_p2 := StrategyReport_init |}
           Lcg.demo_world); reflexivity.
Defined.

(** * The further properties at concrete inputs *)

Lemma winner_is_who_defected_more_holds :
  objects Lcg.demo_world 3 <> UniformStrategy
  /\ objects Lcg.demo_world 0 <> UniformStrategy
  /\ exists (rep : Report) (s : Game Lcg.RNG),
       play_game Lcg.RNG Lcg.randbelow Lcg.random Lcg.randint (Some 9)
         (IPDEngine_init 3 0, Lcg.demo_world) = (Returns rep, s)
       /\ total_gain (strategy_report_p1 rep) - total_gain (strategy_report_p2 rep)
          = 5 * (defections (strategy_report_p1 rep)
                 - defections (strategy_report_p2 rep)).
Proof.
  split; [discriminate |]. split; [discriminate |].
  destruct (winner_is_who_defected_more
              Lcg.RNG Lcg.randbelow Lcg.random Lcg.randint 9 3 0 Lcg.demo_world)
    as (rep & s & G & D & _); [discriminate | discriminate |].
  exists rep, s. split; assumption.
Defined.

Lemma total_gains_bounded_holds :
  0 <= 9
  /\ objects Lcg.demo_world 3 <> UniformStrategy
  /\ objects Lcg.demo_world 0 <> UniformStrategy
  /\ exists (rep : Report) (s : Game Lcg.RNG),
       play_game Lcg.RNG Lcg.randbelow Lcg.random Lcg.randint (Some 9)
         (IPDEngine_init 3 0, Lcg.demo_world) = (Returns rep, s)
       /\ 0 <= total_gain (strategy_report_p1 rep) <= 5 * 9
       /\ 0 <= total_gain (strategy_report_p2 rep) <= 5 * 9.
Proof.
  split; [lia |]. split; [discriminate |]. split; [discriminate |].
  destruct (total_gains_bounded
              Lcg.RNG Lcg.randbelow Lcg.random Lcg.randint 9 3 0 Lcg.demo_world)
    as (rep & s & G & B1 & B2 & _); [lia | discriminate | discriminate |].
  exists rep, s. repeat split; try assumption; lia.
Defined.

Lemma average_gains_between_0_and_5_holds :
  1 <= 9
  /\ objects Lcg.demo_world 3 <> UniformStrategy
  /\ objects Lcg.demo_world 0 <> UniformStrategy
  /\ exists (rep : Report) (s : Game Lcg.RNG) (q1 q2 : Q),
       play_game Lcg.RNG Lcg.randbelow Lcg.random Lcg.randint (Some 9)
         (IPDEngine_init 3 0, Lcg.demo_world) = (Returns rep, s)
       /\ average_gain (strategy_report_p1 rep) = Returns q1
       /\ Qle (inject_Z 0) q1 /\ Qle q1 (inject_Z 5)
       /\ average_gain (strategy_report_p2 rep) = Returns q2
       /\ Qle (inject_Z 0) q2 /\ Qle q2 (inject_Z 5).
Proof.
  split; [lia |]. split; [discriminate |]. split; [discriminate |].
  apply (average_gains_between_0_and_5
           Lcg.RNG Lcg.randbelow Lcg.random Lcg.randint 9 3 0 Lcg.demo_world);
    [lia | discriminate | discriminate].
Defined.


Lemma report_of_a_game_renders_holds :
  1 <= 100
  /\ objects Lcg.demo_world 0 <> UniformStrategy
  /\ objects Lcg.demo_world 1 <> UniformStrategy
  /\ exists (rep : Report) (s : Game Lcg.RNG) (text : string),
       play_game Lcg.RNG Lcg.randbelow Lcg.random Lcg.randint (Some 100)
         (IPDEngine_init 0 1, Lcg.demo_world) = (Returns rep, s)
       /\ Report_str Lcg.RNG Lcg.float_repr rep (snd s) = (Returns text, snd s).
Proof.
  split; [lia |]. split; [discriminate |]. split; [discriminate |].
  apply (report_of_a_game_renders
           Lcg.RNG Lcg.randbelow Lcg.random Lcg.randint Lcg.float_repr
           100 0 1 Lcg.demo_world);
    [lia | discriminate | discriminate].
Defined.

Lemma game_of_fixed_strategies_holds :
  0 <= 6
  /\ fixed_action (objects (set_object 4 DefectStrategy Lcg.demo_world) 4) = Some DEFECT
  /\ fixed_action (objects (set_object 4 DefectStrategy Lcg.demo_world) 1)
     = Some COOPERATE
  /\ exists (rep : Report) (e' : IPDEngine),
       play_game Lcg.RNG Lcg.randbelow Lcg.random Lcg.randint (Some 6)
         (IPDEngine_init 4 1, set_object 4 DefectStrategy Lcg.demo_world)
       = (Returns rep, (e', set_object 4 DefectStrategy Lcg.demo_world))
       /\ total_gain (strategy_report_p1 rep) = 30
       /\ total_gain (strategy_report_p2 rep) = 0
       /\ action_histogram (strategy_report_p1 rep) = [(DEFECT, 6)]
       /\ action_histogram (strategy_report_p2 rep) = [(COOPERATE, 6)]
       /\ winner rep = Some 4%nat.
Proof.
  split; [lia |]. split; [reflexivity |]. split; [reflexivity |].
  destruct (game_of_fixed_strategies
              Lcg.RNG Lcg.randbelow Lcg.random Lcg.randint 6 4 1
              (set_object 4 DefectStrategy Lcg.demo_world) DEFECT COOPERATE)
    as (rep & e' & G & G1 & G2 & A & _ & W & _); [lia | reflexivity | reflexivity |].
  exists rep, e'. split; [exact G |]. split; [exact G1 |]. split; [exact G2 |].
  destruct A as [A1 A2]; [lia |].
  split; [exact A1 |]. split; [exact A2 |].
  apply W; [lia | reflexivity | reflexivity].
Defined.

Lemma replay_strategy_stays_within_5_holds :
  (0 <> 3)%nat
  /\ objects Lcg.demo_world 0 = ReplayStrategy_init DEFECT
  /\ objects Lcg.demo_world 3 <> UniformStrategy
  /\ exists (rep : Report) (s : Game Lcg.RNG),
       play_game Lcg.RNG Lcg.randbelow Lcg.random Lcg.randint (Some 12)
         (IPDEngine_init 0 3, Lcg.demo_world) = (Returns rep, s)
       /\ -5 <= total_gain (strategy_report_p1 rep)
                - total_gain (strategy_report_p2 rep) <= 5.
Proof.
  split; [discriminate |]. split; [reflexivity |]. split; [discriminate |].
  destruct (replay_strategy_stays_within_5
              Lcg.RNG Lcg.randbelow Lcg.random Lcg.randint 12 DEFECT 0 3 Lcg.demo_world)
    as (rep & s & a & G & _ & _ & B & _); [discriminate | reflexivity | discriminate |].
  exists rep, s. split; assumption.
Defined.

Lemma same_object_in_both_seats_ties_holds :
  next_action (objects Lcg.demo_world 0) <> None
  /\ exists (rep : Report) (s : Game Lcg.RNG),
       play_game Lcg.RNG Lcg.randbelow Lcg.random Lcg.randint (Some 4)
         (IPDEngine_init 0 0, Lcg.demo_world) = (Returns rep, s)
       /\ strategy_report_p1 rep = strategy_report_p2 rep
       /\ winner rep = None.
Proof.
  split; [discriminate |].
  apply (same_object_in_both_seats_ties
           Lcg.RNG Lcg.randbelow Lcg.random Lcg.randint 4 0 Lcg.demo_world).
  discriminate.
Defined.

Lemma play_game_draws_its_rounds_holds :
  objects Lcg.demo_world 3 <> UniformStrategy
  /\ objects Lcg.demo_world 1 <> UniformStrategy
  /\ 1 <= fst (Lcg.randint 1 MAX_N_TURN (rng Lcg.demo_world)) <= MAX_N_TURN
  /\ exists (rep : Report) (s : Game Lcg.RNG) (text : string),
       play_game Lcg.RNG Lcg.randbelow Lcg.random Lcg.randint None
         (IPDEngine_init 3 1, Lcg.demo_world) = (Returns rep, s)
       /\ n_rounds (strategy_report_p1 rep) = 43
       /\ n_rounds (strategy_report_p2 rep) = 43
       /\ Report_str Lcg.RNG Lcg.float_repr rep (snd s) = (Returns text, snd s).
Proof.
  split; [discriminate |]. split; [discriminate |].
  split; [vm_compute; split; discriminate |].
  destruct (play_game_draws_its_rounds
              Lcg.RNG Lcg.randbelow Lcg.random Lcg.randint Lcg.float_repr
              3 1 Lcg.demo_world)
    as (rep & s & text & G & N1 & N2 & _ & T);
    [discriminate | discriminate | vm_compute; split; discriminate |].
  exists rep, s, text. repeat split; assumption.
Defined.

Lemma random_strategy_turn_holds :
  objects Lcg.demo_world 3 = RandomStrategy (Qmake 1 2)
  /\ fst (take_turn Lcg.RNG Lcg.randbelow Lcg.random 3 Lcg.demo_world)
     = Returns COOPERATE
  /\ rng (snd (take_turn Lcg.RNG Lcg.randbelow Lcg.random 3 Lcg.demo_world))
     = Lcg.next 42.
Proof.
  split; [reflexivity |].
  destruct (random_strategy_turn Lcg.RNG Lcg.randbelow Lcg.random 3 (Qmake 1 2)
              Lcg.demo_world eq_refl) as (W & C & _).
  split; [apply C; vm_compute; reflexivity |].
  rewrite W. reflexivity.
Defined.

Lemma play_round_all_or_nothing_holds :
  (exists i : Z,
     play_round Lcg.RNG Lcg.randbelow Lcg.random (IPDEngine_init 2 1, Lcg.demo_world)
     = (Raises (KeyError (SInt i)),
        (IPDEngine_init 2 1,
         {| objects := objects Lcg.demo_world;
            rng := snd (Lcg.randbelow Action_class_len (rng Lcg.demo_world)) |})))
  /\ (exists i : Z,
        play_round Lcg.RNG Lcg.randbelow Lcg.random (IPDEngine_init 1 2, Lcg.demo_world)
        = (Raises (KeyError (SInt i)),
           (IPDEngine_init 1 2,
            {| objects := objects Lcg.demo_world;
               rng := snd (Lcg.randbelow Action_class_len (rng Lcg.demo_world)) |})))
  /\ exists (e' : IPDEngine) (w' : World Lcg.RNG),
       play_round Lcg.RNG Lcg.randbelow Lcg.random (IPDEngine_init 0 1, Lcg.demo_world)
       = (Returns tt, (e', w'))
       /\ _report_1 e' = notify DEFECT 5 StrategyReport_init
       /\ _report_2 e' = notify COOPERATE 0 StrategyReport_init
       /\ rng w' = rng Lcg.demo_world
       /\ objects w' 0 = after_register (objects Lcg.demo_world 0) COOPERATE
       /\ objects w' 1 = objects Lcg.demo_world 1
       /\ objects w' 2 = objects Lcg.demo_world 2.
Proof.
  split; [| split].
  - eexists.
    apply (proj1 (play_round_all_or_nothing Lcg.RNG Lcg.randbelow Lcg.random
                    (IPDEngine_init 2 1) Lcg.demo_world)).
    reflexivity.
  - destruct (proj1 (proj2 (play_round_all_or_nothing Lcg.RNG Lcg.randbelow Lcg.random
                              (IPDEngine_init 1 2) Lcg.demo_world)))
      as (a1 & w1 & T1 & R); [discriminate | reflexivity |].
    assert (E1 : take_turn Lcg.RNG Lcg.randbelow Lcg.random 1 Lcg.demo_world
                 = (Returns COOPERATE, Lcg.demo_world)) by reflexivity.
    cbn [_p1 _p2 IPDEngine_init] in T1. rewrite E1 in T1.
    injection T1 as <- <-.
    eexists. exact R.
  - destruct (proj2 (proj2 (play_round_all_or_nothing Lcg.RNG Lcg.randbelow Lcg.random
                              (IPDEngine_init 0 1) Lcg.demo_world)))
      as (a1 & a2 & w1 & w2 & w' & e' & T1 & T2 & R & _ & _ & R1 & R2 & G & O);
      [discriminate | discriminate |].
    assert (E1 : take_turn Lcg.RNG Lcg.randbelow Lcg.random 0 Lcg.demo_world
                 = (Returns DEFECT, Lcg.demo_world)) by reflexivity.
    assert (E2 : take_turn Lcg.RNG Lcg.randbelow Lcg.random 1 Lcg.demo_world
                 = (Returns COOPERATE, Lcg.demo_world)) by reflexivity.
    cbn [_p1 _p2 IPDEngine_init] in T1, T2.
    rewrite E1 in T1. injection T1 as <- <-.
    rewrite E2 in T2. injection T2 as <- <-.
    exists e', w'.
    split; [exact R |]. split; [exact R1 |]. split; [exact R2 |].
    split; [exact G |].
    split; [exact (O 0%nat) |]. split; [exact (O 1%nat) | exact (O 2%nat)].
Defined.

Lemma exchanging_seats_exchanges_reports_holds :
  (0 <> 1)%nat
  /\ next_action (objects Lcg.demo_world 0) <> None
  /\ next_action (objects Lcg.demo_world 1) <> None
  /\ exists (rep rep' : Report) (s s' : Game Lcg.RNG),
       play_game Lcg.RNG Lcg.randbelow Lcg.random Lcg.randint (Some 100)
         (IPDEngine_init 0 1, Lcg.demo_world) = (Returns rep, s)
       /\ play_game Lcg.RNG Lcg.randbelow Lcg.random Lcg.randint (Some 100)
            (IPDEngine_init 1 0, Lcg.demo_world) = (Returns rep', s')
       /\ strategy_report_p1 rep' = strategy_report_p2 rep
       /\ strategy_report_p2 rep' = strategy_report_p1 rep
       /\ winner rep' = winner rep.
Proof.
  split; [discriminate |]. split; [discriminate |]. split; [discriminate |].
  apply (exchanging_seats_exchanges_reports
           Lcg.RNG Lcg.randbelow Lcg.random Lcg.randint 100 0 1 Lcg.demo_world);
    discriminate.
Defined.

Lemma fixed_strategies_ignore_calls_holds :
  fixed_action (objects Lcg.demo_world 1) = Some COOPERATE
  /\ do_calls Lcg.RNG Lcg.randbelow Lcg.random 1
       [call_register_opponent_action DEFECT; call_take_turn;
        call_register_opponent_action DEFECT]
       Lcg.demo_world
     = (Returns tt, Lcg.demo_world)
  /\ take_turn Lcg.RNG Lcg.randbelow Lcg.random 1 Lcg.demo_world
     = (Returns COOPERATE, Lcg.demo_world).
Proof.
  split; [reflexivity |].
  destruct (fixed_strategies_ignore_calls Lcg.RNG Lcg.randbelow Lcg.random 1 COOPERATE
              [call_register_opponent_action DEFECT; call_take_turn;
               call_register_opponent_action DEFECT]
              Lcg.demo_world eq_refl) as (C & T & _).
  split; assumption.
Defined.

Lemma play_game_continues_holds :
  0 <= 2
  /\ 0 <= 3
  /\ play_game Lcg.RNG Lcg.randbelow Lcg.random Lcg.randint (Some 3)
       (snd (play_game Lcg.RNG Lcg.randbelow Lcg.random Lcg.randint (Some 2)
               (IPDEngine_init 0 1, Lcg.demo_world)))
     = play_game Lcg.RNG Lcg.randbelow Lcg.random Lcg.randint (Some 5)
         (IPDEngine_init 0 1, Lcg.demo_world).
Proof.
  split; [lia |]. split; [lia |].
  apply (play_game_continues Lcg.RNG Lcg.randbelow Lcg.random Lcg.randint 2 3
           (IPDEngine_init 0 1, Lcg.demo_world)
           (snd (play_game Lcg.RNG Lcg.randbelow Lcg.random Lcg.randint (Some 2)
                   (IPDEngine_init 0 1, Lcg.demo_world)))
           {| p1 := 0;
              strategy_report_p1 :=
                {| total_gain := 8;
                   action_histogram := [(DEFECT, 1); (COOPERATE, 1)] |};
              p2 := 1;
              strategy_report_p2 :=
                {| total_gain := 3; action_histogram := [(COOPERATE, 2)] |} |});
    [lia | lia | reflexivity].
Defined.
